(** * NVTX range manager: line-span adjustment and the range store

    A shallow embedding of [NvtxRangeManager] (the TypeScript class of
    [services/NvtxRangeManager]): the persisted range records, the
    read-modify-write store operations, and the engine that re-anchors the
    recorded line spans when the edited document gains or loses lines.

    Conventions of the embedding.
    - JavaScript numbers that hold line numbers, columns and clock readings
      are integers; they are modelled by [Z].
    - Text whose characters the code classifies (line text, inserted text,
      file content) is a sequence of UTF-16 code units, [list N]; columns
      and [.length] count code units.  Identifiers, names and paths are only
      compared and are kept as [string].
    - A call that can throw returns a [result]; the handlers that read and
      write the ranges file take a [World] and return the one they leave. *)

From Stdlib Require Import ZArith NArith List Bool String Ascii Lia.
From Stdlib Require Import DecimalString DecimalZ.
Import ListNotations.

Local Open Scope Z_scope.

(** ** JavaScript text *)

Module Js.

(** A string as its UTF-16 code units. *)
Definition text := list N.

(** The code units of an ASCII literal. *)
Fixpoint ofString (s : string) : text :=
  match s with
  | EmptyString => []
  | String c s' => N_of_ascii c :: ofString s'
  end.

Definition LF : N := 10%N.

(** The class [\s] of a regular expression, which is also what [trim] and
    [trimEnd] strip: WhiteSpace and LineTerminator of ECMAScript. *)
Definition isWhitespace (c : N) : bool :=
  ((9 <=? c) && (c <=? 13) ||
   (c =? 32) || (c =? 160) || (c =? 5760) ||
   ((8192 <=? c) && (c <=? 8202)) ||
   (c =? 8232) || (c =? 8233) || (c =? 8239) || (c =? 8287) ||
   (c =? 12288) || (c =? 65279))%N.

Definition length (s : text) : Z := Z.of_nat (List.length s).

(** [s.search(/\S/)]: index of the first character outside [\s], or -1. *)
Fixpoint searchFrom (i : Z) (s : text) : Z :=
  match s with
  | [] => -1
  | c :: s' => if isWhitespace c then searchFrom (i + 1) s' else i
  end.

Definition searchNonWhitespace (s : text) : Z := searchFrom 0 s.

Fixpoint trimStart (s : text) : text :=
  match s with
  | [] => []
  | c :: s' => if isWhitespace c then trimStart s' else s
  end.

Definition trimEnd (s : text) : text := rev (trimStart (rev s)).

Definition trim (s : text) : text := trimStart (trimEnd s).

(** [s.includes('\n')]. *)
Definition includesNewline (s : text) : bool := existsb (N.eqb LF) s.

(** [(s.match(/\n/g) || []).length]. *)
Definition countNewlines (s : text) : Z :=
  Z.of_nat (List.length (filter (N.eqb LF) s)).

(** [n.toString()] of an integer: its decimal digits, after a minus sign
    when it is negative. *)
Definition toString (n : Z) : string := NilEmpty.string_of_int (Z.to_int n).

End Js.

(** ** Results of calls that can throw *)

Inductive result (A : Type) : Type :=
| Ok (a : A)
| Throw (msg : string).
Arguments Ok {A} a.
Arguments Throw {A} msg.

Definition bindR {A B} (r : result A) (k : A -> result B) : result B :=
  match r with
  | Ok a => k a
  | Throw m => Throw m
  end.

Declare Scope result_scope.
Delimit Scope result_scope with result.
Notation "'let?' x ':=' r 'in' k" := (bindR r (fun x => k))
  (at level 10, x name, r at level 100, k at level 200) : result_scope.

(** [rs.map(f)] with a callback that can throw: the first throw aborts. *)
Fixpoint mapR {A B} (f : A -> result B) (l : list A) : result (list B) :=
  match l with
  | [] => Ok []
  | a :: l' =>
      match f a with
      | Ok b => match mapR f l' with
                | Ok bs => Ok (b :: bs)
                | Throw m => Throw m
                end
      | Throw m => Throw m
      end
  end.

(** ** The data model *)

Inductive RangeType : Type := block | event.

(** [interface NvtxRange].  Line numbers are 1-indexed. *)
Record NvtxRange : Type := mkRange {
  id : string;
  name : string;
  filePath : string;
  type : RangeType;
  startLine : Z;
  endLine : option Z;
  isEnabled : bool
}.

(** [Partial<NvtxRange>]: every field may be left out. *)
Record PartialRange : Type := mkPartial {
  p_id : option string;
  p_name : option string;
  p_filePath : option string;
  p_type : option RangeType;
  p_startLine : option Z;
  p_endLine : option (option Z);
  p_isEnabled : option bool
}.

(** Truthiness of [range.endLine]: [undefined] and [0] are falsy. *)
Definition truthy (n : option Z) : bool :=
  match n with
  | Some v => negb (v =? 0)
  | None => false
  end.

(** ** The editor's side of a change event *)

Record Position : Type := mkPos { line : Z; character : Z }.
Record VsRange : Type := mkVsRange { start : Position; end_ : Position }.

(** [vscode.TextDocumentContentChangeEvent]: the replaced span and the text
    put in its place. *)
Record ContentChange : Type := mkChange {
  range : VsRange;
  text : Js.text
}.

(** [vscode.TextDocument], as far as the code reads it: [uri.fsPath] and
    the lines. *)
Record TextDocument : Type := mkDoc { fsPath : string; lines : list Js.text }.

Definition lineCount (d : TextDocument) : Z := Z.of_nat (List.length (lines d)).

(** [document.lineAt(n).text]; the editor throws on a line number that is
    not a line of the document. *)
Definition lineAt (d : TextDocument) (n : Z) : result Js.text :=
  if (0 <=? n) && (n <? lineCount d)
  then Ok (nth (Z.to_nat n) (lines d) [])
  else Throw "Illegal value for `line`".

(** ** The adjustment engine *)

Record Adjustment : Type := mkAdj {
  shouldModify : bool;
  startLineDelta : Z;
  endLineDelta : option Z
}.

Definition isInsertionBeforeContent
    (document : TextDocument) (lineNumber insertionColumn : Z) : result bool :=
  (let? lineText := lineAt document lineNumber in
   let firstNonWhitespace := Js.searchNonWhitespace lineText in
   Ok ((firstNonWhitespace =? -1) || (insertionColumn <=? firstNonWhitespace)))%result.

Definition isInsertionAfterContent
    (document : TextDocument) (lineNumber insertionColumn : Z) : result bool :=
  (let? lineText := lineAt document lineNumber in
   let lastNonWhitespace := Js.length (Js.trimEnd lineText) in
   Ok (insertionColumn <? lastNonWhitespace))%result.

Definition shouldExpandForNewlineInsertion
    (document : TextDocument) (changeStartLine insertionColumn : Z) : result bool :=
  (let? currentLineText := lineAt document changeStartLine in
   let nextLineExists := changeStartLine + 1 <? lineCount document in
   let? nextLineText :=
     (if nextLineExists then lineAt document (changeStartLine + 1) else Ok []) in
   let nextLineHasContent := Js.length (Js.trim nextLineText) >? 0 in
   let currentLineHasContentAfterInsertion :=
     insertionColumn <? Js.length (Js.trimEnd currentLineText) in
   Ok (nextLineHasContent || currentLineHasContentAfterInsertion))%result.

Definition shouldExpandRangeAtEnd
    (change : ContentChange) (document : TextDocument)
    (changeStartLine insertionColumn netLineChange : Z) : result bool :=
  if Js.includesNewline (text change) && (netLineChange >? 0)
  then shouldExpandForNewlineInsertion document changeStartLine insertionColumn
  else isInsertionAfterContent document changeStartLine insertionColumn.

Definition handleChangeAtRangeStart
    (change : ContentChange) (document : TextDocument)
    (changeStartLine netLineChange : Z) : result Adjustment :=
  let insertionColumn := character (start (range change)) in
  (let? before := isInsertionBeforeContent document changeStartLine insertionColumn in
   if before
   then Ok (mkAdj true netLineChange (Some netLineChange))
   else Ok (mkAdj true 0 (Some netLineChange)))%result.

Definition handleChangeAtRangeEnd
    (change : ContentChange) (document : TextDocument)
    (changeStartLine netLineChange : Z) : result Adjustment :=
  let insertionColumn := character (start (range change)) in
  (let? expand :=
     shouldExpandRangeAtEnd change document changeStartLine insertionColumn netLineChange in
   if expand
   then Ok (mkAdj true 0 (Some netLineChange))
   else Ok (mkAdj false 0 None))%result.

Definition calculateRangeAdjustment
    (changeStartLine netLineChange rangeStart rangeEnd : Z)
    (change : ContentChange) (document : TextDocument) : result Adjustment :=
  if changeStartLine <? rangeStart then
    Ok (mkAdj true netLineChange (Some netLineChange))
  else if changeStartLine =? rangeStart then
    handleChangeAtRangeStart change document changeStartLine netLineChange
  else if (changeStartLine >? rangeStart) && (changeStartLine <? rangeEnd) then
    Ok (mkAdj true 0 (Some netLineChange))
  else if changeStartLine =? rangeEnd then
    handleChangeAtRangeEnd change document changeStartLine netLineChange
  else
    Ok (mkAdj false 0 None).

Definition setStartLine (r : NvtxRange) (v : Z) : NvtxRange :=
  mkRange (id r) (name r) (filePath r) (type r) v (endLine r) (isEnabled r).

Definition setEndLine (r : NvtxRange) (v : option Z) : NvtxRange :=
  mkRange (id r) (name r) (filePath r) (type r) (startLine r) v (isEnabled r).

Definition setIsEnabled (r : NvtxRange) (v : bool) : NvtxRange :=
  mkRange (id r) (name r) (filePath r) (type r) (startLine r) (endLine r) v.

Definition validateRangeBounds (r : NvtxRange) : NvtxRange :=
  let validatedRange :=
    if startLine r <? 1 then setStartLine r 1 else r in
  match endLine validatedRange with
  | Some e =>
      if truthy (Some e) && (e <? startLine validatedRange)
      then setEndLine validatedRange (Some (startLine validatedRange))
      else validatedRange
  | None => validatedRange
  end.

(** ** One document-change event against the range set *)

Record TextDocumentChangeEvent : Type := mkEvent {
  document : TextDocument;
  contentChanges : list ContentChange
}.

Definition linesAdded (change : ContentChange) : Z :=
  Js.countNewlines (text change).

Definition linesRemoved (change : ContentChange) : Z :=
  line (end_ (range change)) - line (start (range change)).

Definition netLineChange (change : ContentChange) : Z :=
  linesAdded change - linesRemoved change.

(** [newRange.startLine += startLineDelta] and, when [newRange.endLine] is
    truthy and the delta is not [null], [newRange.endLine += endLineDelta]. *)
Definition applyAdjustment (r : NvtxRange) (adjustment : Adjustment) : NvtxRange :=
  let newRange := setStartLine r (startLine r + startLineDelta adjustment) in
  match endLine newRange, endLineDelta adjustment with
  | Some e, Some d =>
      if truthy (Some e) then setEndLine newRange (Some (e + d)) else newRange
  | _, _ => newRange
  end.

(** The callback of [ranges.map] in [handleTextDocumentChange], for one
    change.  The second component is whether the callback has set
    [rangesModified]. *)
Definition adjustRange
    (currentFilePath : string) (change : ContentChange) (document : TextDocument)
    (r : NvtxRange) : result (NvtxRange * bool) :=
  let changeStartLine := line (start (range change)) in
  if negb (String.eqb (filePath r) currentFilePath) then Ok (r, false)
  else
    let rangeStart := startLine r - 1 in
    let rangeEnd :=
      match endLine r with
      | Some e => if truthy (Some e) then e - 1 else rangeStart
      | None => rangeStart
      end in
    (let? adjustment :=
       calculateRangeAdjustment changeStartLine (netLineChange change)
         rangeStart rangeEnd change document in
     if shouldModify adjustment
     then Ok (validateRangeBounds (applyAdjustment r adjustment), true)
     else Ok (validateRangeBounds r, false))%result.

(** The body of the loop over [event.contentChanges]; the state is
    [(ranges, rangesModified)]. *)
Definition processChange
    (currentFilePath : string) (document : TextDocument)
    (st : list NvtxRange * bool) (change : ContentChange)
    : result (list NvtxRange * bool) :=
  if netLineChange change =? 0 then Ok st
  else
    (let? rs := mapR (adjustRange currentFilePath change document) (fst st) in
     Ok (map fst rs, snd st || existsb snd rs))%result.

Fixpoint processChanges
    (currentFilePath : string) (document : TextDocument)
    (changes : list ContentChange) (st : list NvtxRange * bool)
    : result (list NvtxRange * bool) :=
  match changes with
  | [] => Ok st
  | change :: rest =>
      match processChange currentFilePath document st change with
      | Ok st' => processChanges currentFilePath document rest st'
      | Throw m => Throw m
      end
  end.

(** ** The range store *)

(** What the handlers read and change outside themselves. *)
Record World : Type := mkWorld {
  workspaceOpen : bool;           (* a workspace folder is open *)
  rangesFile : option Js.text;    (* decoded content of the ranges file *)
  diskWritable : bool;            (* creating the directory and writing succeed *)
  activeTextEditor : option string; (* [fsPath] of the active editor's document *)
  reported : list string;         (* console.error with showErrorMessage *)
  rangesChangedSignals : nat;     (* calls of [onRangesChanged] *)
  decorationUpdates : nat         (* calls of [updateDecorations] *)
}.

Definition report (msg : string) (w : World) : World :=
  mkWorld (workspaceOpen w) (rangesFile w) (diskWritable w) (activeTextEditor w)
    (reported w ++ [msg]) (rangesChangedSignals w) (decorationUpdates w).

Definition storeFile (content : Js.text) (w : World) : World :=
  mkWorld (workspaceOpen w) (Some content) (diskWritable w) (activeTextEditor w)
    (reported w) (rangesChangedSignals w) (decorationUpdates w).

Definition signalRangesChanged (w : World) : World :=
  mkWorld (workspaceOpen w) (rangesFile w) (diskWritable w) (activeTextEditor w)
    (reported w) (S (rangesChangedSignals w)) (decorationUpdates w).

Definition updateDecorations (w : World) : World :=
  mkWorld (workspaceOpen w) (rangesFile w) (diskWritable w) (activeTextEditor w)
    (reported w) (rangesChangedSignals w) (S (decorationUpdates w)).

(** [getRangesFilePath] throws when no workspace folder is open; the path
    itself is fixed by the workspace. *)
Definition getRangesFilePath (w : World) : result unit :=
  if workspaceOpen w then Ok tt
  else Throw "Workspace not found. Please open a folder.".

Definition isEmptyText (s : Js.text) : bool :=
  match s with [] => true | _ => false end.

Definition generateUniqueId (now : Z) : string := Js.toString now.

(** [createRange]; [now] is the reading of [Date.now()] at the call, and an
    argument left out takes its default. *)
Definition createRange
    (now : Z) (name filePath : string) (startLine : Z) (endLine : option Z)
    (type : option RangeType) (isEnabled : option bool) : NvtxRange :=
  mkRange (generateUniqueId now) name filePath
    (match type with Some t => t | None => block end)
    startLine endLine
    (match isEnabled with Some b => b | None => true end).

(** [Object.assign(target, updates)]. *)
Definition assign (target : NvtxRange) (updates : PartialRange) : NvtxRange :=
  mkRange
    (match p_id updates with Some v => v | None => id target end)
    (match p_name updates with Some v => v | None => name target end)
    (match p_filePath updates with Some v => v | None => filePath target end)
    (match p_type updates with Some v => v | None => type target end)
    (match p_startLine updates with Some v => v | None => startLine target end)
    (match p_endLine updates with Some v => v | None => endLine target end)
    (match p_isEnabled updates with Some v => v | None => isEnabled target end).

(** [ranges.find(r => r.id === rangeId)] followed by a mutation of the
    object found: the first range with that id is replaced in the array. *)
Fixpoint mutateFirst (rangeId : string) (f : NvtxRange -> NvtxRange)
    (ranges : list NvtxRange) : option (list NvtxRange) :=
  match ranges with
  | [] => None
  | r :: rest =>
      if String.eqb (id r) rangeId then Some (f r :: rest)
      else match mutateFirst rangeId f rest with
           | Some rest' => Some (r :: rest')
           | None => None
           end
  end.

Section Store.

(** [JSON.parse] on the trimmed file content, cast to [NvtxRange[]] without
    a check; [Throw] is its [SyntaxError].  Content that is valid JSON but
    not an array of ranges is outside this model. *)
Variable JSON_parse : Js.text -> result (list NvtxRange).

(** [JSON.stringify(ranges, null, 2)]. *)
Variable JSON_stringify : list NvtxRange -> Js.text.

Definition readRanges (w : World) : list NvtxRange * World :=
  let attempt : result (option (list NvtxRange)) :=
    (let? _ := getRangesFilePath w in
     match rangesFile w with
     | Some fileContent =>
         let contentString := Js.trim fileContent in
         if isEmptyText contentString then Ok (Some [])
         else (let? parsed := JSON_parse contentString in Ok (Some parsed))
     | None => Ok None
     end)%result in
  match attempt with
  | Ok (Some ranges) => (ranges, w)
  | Ok None => ([], w)
  | Throw m => ([], report ("Error reading NVTX ranges: " ++ m) w)
  end.

Definition writeRanges (ranges : list NvtxRange) (w : World) : World :=
  let attempt : result Js.text :=
    (let? _ := getRangesFilePath w in
     if diskWritable w then Ok (JSON_stringify ranges)
     else Throw "EACCES")%result in
  match attempt with
  | Ok fileContent => storeFile fileContent w
  | Throw m => report ("Error writing NVTX ranges: " ++ m) w
  end.

Definition addRange (r : NvtxRange) (w : World) : World :=
  let (ranges, w1) := readRanges w in
  writeRanges (ranges ++ [r]) w1.

Definition deleteRange (rangeId : string) (w : World) : bool * World :=
  let (ranges, w1) := readRanges w in
  let initialLength := List.length ranges in
  let updatedRanges := filter (fun r => negb (String.eqb (id r) rangeId)) ranges in
  if negb (Nat.eqb (List.length updatedRanges) initialLength)
  then (true, writeRanges updatedRanges w1)
  else (false, w1).

Definition updateRange (rangeId : string) (updates : PartialRange) (w : World)
    : bool * World :=
  let (ranges, w1) := readRanges w in
  match mutateFirst rangeId (fun targetRange => assign targetRange updates) ranges with
  | Some ranges' => (true, writeRanges ranges' w1)
  | None => (false, w1)
  end.

Definition toggleRangeEnabled (rangeId : string) (w : World) : bool * World :=
  let (ranges, w1) := readRanges w in
  match mutateFirst rangeId
          (fun targetRange => setIsEnabled targetRange (negb (isEnabled targetRange)))
          ranges with
  | Some ranges' => (true, writeRanges ranges' w1)
  | None => (false, w1)
  end.

(** [handleTextDocumentChange].  A throw of [lineAt] leaves the handler
    before anything is written. *)
Definition handleTextDocumentChange (ev : TextDocumentChangeEvent) (w : World)
    : result unit * World :=
  let isActive :=
    match activeTextEditor w with
    | Some p => String.eqb p (fsPath (document ev))
    | None => false
    end in
  if negb isActive then (Ok tt, w)
  else
    let currentFilePath := fsPath (document ev) in
    let (ranges, w1) := readRanges w in
    match processChanges currentFilePath (document ev) (contentChanges ev)
            (ranges, false) with
    | Throw m => (Throw m, w1)
    | Ok (ranges', rangesModified) =>
        let w2 :=
          if rangesModified
          then signalRangesChanged (writeRanges ranges' w1)
          else w1 in
        (Ok tt, updateDecorations w2)
    end.

End Store.

(** ** The spec's reading of the text tests *)

(** The line has a character that is not whitespace. *)
Definition hasContent (s : Js.text) : bool :=
  existsb (fun c => negb (Js.isWhitespace c)) s.

(** Non-blank content remains at or after column [col]. *)
Definition hasContentFrom (col : Z) (s : Js.text) : bool :=
  hasContent (skipn (Z.to_nat col) s).

(** The column of the first non-whitespace character, none on a blank
    line. *)
Fixpoint firstNonWhitespaceColumn (s : Js.text) : option Z :=
  match s with
  | [] => None
  | c :: s' =>
      if Js.isWhitespace c
      then option_map Z.succ (firstNonWhitespaceColumn s')
      else Some 0
  end.

(** The insertion column is at or before the first non-whitespace column,
    or the line has no content. *)
Definition atOrBeforeContent (col : Z) (s : Js.text) : bool :=
  match firstNonWhitespaceColumn s with
  | Some f => col <=? f
  | None => true
  end.

(** Everything before column [col] is whitespace. *)
Definition blankBefore (col : Z) (s : Js.text) : bool :=
  forallb Js.isWhitespace (firstn (Z.to_nat col) s).

(** The data model's invariant on a range. *)
Definition validRange (r : NvtxRange) : Prop :=
  1 <= startLine r /\ forall e, endLine r = Some e -> startLine r <= e.

(** What document-change processing may change of a range of file
    [currentFilePath]: the two line fields only, and never from an absent
    [endLine] to a present one; a range of another file not at all. *)
Definition framed (currentFilePath : string) (r r' : NvtxRange) : Prop :=
  id r' = id r /\ name r' = name r /\ filePath r' = filePath r /\
  type r' = type r /\ isEnabled r' = isEnabled r /\
  (endLine r = None -> endLine r' = None) /\
  (filePath r <> currentFilePath -> r' = r).

(** The range with its two line fields replaced, the other fields kept. *)
Definition withLines (r : NvtxRange) (s : Z) (e : option Z) : NvtxRange :=
  mkRange (id r) (name r) (filePath r) (type r) s e (isEnabled r).

(** The range with both line fields moved, the other fields kept. *)
Definition shiftLines (r : NvtxRange) (dStart dEnd : Z) : NvtxRange :=
  withLines r (startLine r + dStart) (option_map (fun e => e + dEnd) (endLine r)).

(** The zero-based end of the span that [adjustRange] hands to the engine. *)
Definition rangeEndOf (r : NvtxRange) : Z :=
  match endLine r with
  | Some e => if truthy (Some e) then e - 1 else startLine r - 1
  | None => startLine r - 1
  end.


From Stdlib Require Import DecimalPos.

(** ** Validation of a range that comes from outside *)

Record Validation : Type := mkValidation {
  isValid : bool;
  errors : list string
}.

(** [!s] on a string: only the empty string is falsy. *)
Definition isEmptyString (s : string) : bool := String.eqb s "".

(** [validateRange].  The name is trimmed as text; a character of a name
    stands for the code unit of the same number. *)
Definition validateRange (r : NvtxRange) : Validation :=
  let errors0 : list string := [] in
  let errors1 :=
    if isEmptyString (id r) then errors0 ++ ["Range ID is required"%string] else errors0 in
  let errors2 :=
    if isEmptyString (name r) || isEmptyText (Js.trim (Js.ofString (name r)))
    then errors1 ++ ["Range name is required"%string] else errors1 in
  let errors3 :=
    if isEmptyString (filePath r)
    then errors2 ++ ["File path is required"%string] else errors2 in
  let errors4 :=
    if startLine r <? 1
    then errors3 ++ ["Start line must be >= 1"%string] else errors3 in
  let errors5 :=
    match type r, endLine r with
    | block, Some e =>
        if e <? startLine r
        then errors4 ++ ["End line must be >= start line"%string] else errors4
    | _, _ => errors4
    end in
  mkValidation (Nat.eqb (List.length errors5) 0) errors5.

(** ** Queries on the store *)

Definition isBlock (r : NvtxRange) : bool :=
  match type r with block => true | event => false end.

Section StoreQueries.

Variable JSON_parse : Js.text -> result (list NvtxRange).

Definition getRangesForFile (path : string) (w : World) : list NvtxRange * World :=
  let (ranges, w1) := readRanges JSON_parse w in
  (filter (fun r => String.eqb (filePath r) path) ranges, w1).

Definition getEnabledRanges (w : World) : list NvtxRange * World :=
  let (ranges, w1) := readRanges JSON_parse w in
  (filter (fun r => isEnabled r) ranges, w1).

Definition getEnabledBlockRanges (w : World) : list NvtxRange * World :=
  let (ranges, w1) := readRanges JSON_parse w in
  (filter (fun r => isEnabled r && isBlock r) ranges, w1).

End StoreQueries.

(** ** What the user is shown *)

Inductive Notification : Type :=
| ErrorMessage (msg : string)
| WarningMessage (msg : string)
| InformationMessage (msg : string).

(** [new vscode.Position(line, character)]; the editor rejects a negative
    line or character. *)
Definition newPosition (l c : Z) : result Position :=
  if l <? 0 then Throw "Illegal argument: line must be non-negative"
  else if c <? 0 then Throw "Illegal argument: character must be non-negative"
  else Ok (mkPos l c).

Definition isBefore (a b : Position) : bool :=
  (line a <? line b) || ((line a =? line b) && (character a <? character b)).

(** [new vscode.Range(start, end)]; the editor puts the earlier position
    first. *)
Definition newRange (a b : Position) : VsRange :=
  if isBefore a b then mkVsRange a b else mkVsRange b a.

(** ** The tree view *)

Module NvtxRangesProvider.

Inductive TreeItem : Type :=
| WorkspaceItem (label : string)
| FileItem (label : string) (absolutePath : string) (ranges : list NvtxRange)
| NvtxRangeItem (rangeData : NvtxRange).

(** The description of a file node: [`${ranges.length} range(s)`]. *)
Definition fileItemDescription (ranges : list NvtxRange) : string :=
  (Js.toString (Z.of_nat (List.length ranges)) ++ " range(s)")%string.

(** The description of a range node. *)
Definition rangeItemDescription (rangeData : NvtxRange) : string :=
  ("L" ++ Js.toString (startLine rangeData)
   ++ match endLine rangeData with
      | Some e => "-L" ++ Js.toString e
      | None => ""
      end
   ++ " (" ++ (if isEnabled rangeData then "Enabled" else "Disabled") ++ ")")%string.

(** One step of the [forEach] that fills the [Map] from file path to
    ranges; the map keeps its keys in the order of their first insertion. *)
Fixpoint pushRange (path : string) (r : NvtxRange)
    (filesWithRanges : list (string * list NvtxRange))
    : list (string * list NvtxRange) :=
  match filesWithRanges with
  | [] => [(path, [r])]
  | (p, rs) :: rest =>
      if String.eqb p path then (p, rs ++ [r]) :: rest
      else (p, rs) :: pushRange path r rest
  end.

Definition groupByFile (ranges : list NvtxRange) : list (string * list NvtxRange) :=
  fold_left (fun filesWithRanges r => pushRange (filePath r) r filesWithRanges)
    ranges [].

Section GetChildren.

Variable JSON_parse : Js.text -> result (list NvtxRange).

(** [vscode.workspace.asRelativePath(filePath, false)]. *)
Variable asRelativePath : string -> string.

(** [getChildren]; [workspaceName] is the name of the first workspace
    folder. *)
Definition getChildren (workspaceName : string) (element : option TreeItem)
    (w : World) : list TreeItem * list Notification * World :=
  if negb (workspaceOpen w)
  then ([], [InformationMessage "No workspace found for NVTX ranges."%string], w)
  else
    match element with
    | None => ([WorkspaceItem workspaceName], [], w)
    | Some (WorkspaceItem _) =>
        let (ranges, w1) := readRanges JSON_parse w in
        (map (fun entry => FileItem (asRelativePath (fst entry)) (fst entry) (snd entry))
           (groupByFile ranges),
         [], w1)
    | Some (FileItem _ _ ranges) => (map NvtxRangeItem ranges, [], w)
    | Some (NvtxRangeItem _) => ([], [], w)
    end.

End GetChildren.

End NvtxRangesProvider.

(** ** Decorations and code lenses *)

Record Decoration : Type := mkDecoration {
  decorationRange : VsRange;
  hoverMessage : string
}.

Record CodeLens : Type := mkCodeLens {
  lensRange : VsRange;
  title : string;
  command : string;
  arguments : NvtxRange
}.

Module NvtxDecorationManager.

(** The decoration of one block range: from column 0 of its first line to
    the end of its last line's text. *)
Definition blockDecoration (document : TextDocument) (r : NvtxRange)
    : result Decoration :=
  let startLineIndex := startLine r - 1 in
  let endLineIndex :=
    match endLine r with
    | Some e => if truthy (Some e) then e - 1 else startLineIndex
    | None => startLineIndex
    end in
  (let? startPosition := newPosition startLineIndex 0 in
   let? endLineText := lineAt document endLineIndex in
   let? endPosition := newPosition endLineIndex (Js.length endLineText) in
   Ok (mkDecoration (newRange startPosition endPosition)
         ("**NVTX Range: " ++ name r ++ "** ("
          ++ (if isEnabled r then "Enabled" else "Disabled") ++ ")")%string))%result.

(** The [forEach] over the ranges of the file: block ranges are decorated
    and grouped by the decoration type of their [isEnabled]; the pair holds
    the group of the enabled style and the group of the disabled style. *)
Fixpoint groupDecorations (document : TextDocument) (ranges : list NvtxRange)
    (groups : list Decoration * list Decoration)
    : result (list Decoration * list Decoration) :=
  match ranges with
  | [] => Ok groups
  | r :: rest =>
      match type r with
      | block =>
          match blockDecoration document r with
          | Ok d =>
              groupDecorations document rest
                (if isEnabled r
                 then (fst groups ++ [d], snd groups)
                 else (fst groups, snd groups ++ [d]))
          | Throw m => Throw m
          end
      | event => groupDecorations document rest groups
      end
  end.

Section UpdateDecorations.

Variable JSON_parse : Js.text -> result (list NvtxRange).

(** [updateDecorations].  [activeEditor] is the document of the active
    editor, if there is one; [shown] is what the editor shows in the two
    styles before the call, and the result holds what it shows after. *)
Definition updateDecorations (decorationsVisible : bool)
    (activeEditor : option TextDocument)
    (shown : list Decoration * list Decoration) (w : World)
    : result unit * (list Decoration * list Decoration) * World :=
  match activeEditor with
  | None => (Ok tt, shown, w)
  | Some document =>
      let currentFilePath := fsPath document in
      let (ranges, w1) := readRanges JSON_parse w in
      let rangesInThisFile :=
        filter (fun r => String.eqb (filePath r) currentFilePath) ranges in
      if negb decorationsVisible then (Ok tt, ([], []), w1)
      else
        match groupDecorations document rangesInThisFile ([], []) with
        | Ok groups => (Ok tt, groups, w1)
        | Throw m => (Throw m, ([], []), w1)
        end
  end.

End UpdateDecorations.

End NvtxDecorationManager.

Module NvtxCodeLensProvider.

Definition codeLensOf (r : NvtxRange) : result CodeLens :=
  let startLineIndex := startLine r - 1 in
  (let? position := newPosition startLineIndex 0 in
   let statusText := (if isEnabled r then "" else " (disabled)")%string in
   Ok (mkCodeLens (newRange position position)
         ("    " ++ name r ++ statusText)%string
         "nvtx-manager.navigateToRange" r))%result.

Section ProvideCodeLenses.

Variable JSON_parse : Js.text -> result (list NvtxRange).

(** [provideCodeLenses] for a document of language [languageId]. *)
Definition provideCodeLenses (decorationsVisible : bool) (languageId : string)
    (document : TextDocument) (w : World) : result (list CodeLens) * World :=
  if negb decorationsVisible || negb (String.eqb languageId "python")
  then (Ok [], w)
  else
    let (ranges, w1) := readRanges JSON_parse w in
    let rangesInThisFile :=
      filter (fun r => String.eqb (filePath r) (fsPath document) && isBlock r)
        ranges in
    (mapR codeLensOf rangesInThisFile, w1).

End ProvideCodeLenses.

End NvtxCodeLensProvider.

(** ** The commands *)

Module Commands.

(** The active editor as the commands read it. *)
Record TextEditor : Type := mkEditor {
  editorDocument : TextDocument;
  languageId : string;
  selection : VsRange
}.

(** What a command shows and how often it refreshes the tree view. *)
Record Outcome : Type := mkOutcome {
  notifications : list Notification;
  treeRefreshes : nat
}.

Definition nothingDone : Outcome := mkOutcome [] 0.

(** [selection.isEmpty]. *)
Definition selectionIsEmpty (s : VsRange) : bool :=
  (line (start s) =? line (end_ s)) && (character (start s) =? character (end_ s)).

(** [navigateToRange] up to the selection it sets: from column 0 of the
    first line to the end of the last line's text. *)
Definition rangeSelection (document : TextDocument) (targetRangeData : NvtxRange)
    : result (Position * Position) :=
  (let? startPosition := newPosition (startLine targetRangeData - 1) 0 in
   match endLine targetRangeData with
   | Some e =>
       let? endLineText := lineAt document (e - 1) in
       let? endPosition := newPosition (e - 1) (Js.length endLineText) in
       Ok (startPosition, endPosition)
   | None =>
       let? startLineText := lineAt document (startLine targetRangeData - 1) in
       let? endPosition :=
         newPosition (startLine targetRangeData - 1) (Js.length startLineText) in
       Ok (startPosition, endPosition)
   end)%result.

(** [nvtx-manager.navigateToRange]: [opened] is the document that opening
    the range's file gives, or the error of opening it.  The result is the
    selection set in the editor, if any, and what the user is shown. *)
Definition navigateToRange (opened : result TextDocument)
    (targetRangeData : option NvtxRange)
    : option (Position * Position) * list Notification :=
  match targetRangeData with
  | None => (None, [])
  | Some target =>
      match bindR opened (fun doc => rangeSelection doc target) with
      | Ok sel => (Some sel, [])
      | Throw m =>
          (None,
           [ErrorMessage ("Could not open file: " ++ filePath target
                          ++ ". Error: " ++ m)%string])
      end
  end.

Section WithStore.

Variable JSON_parse : Js.text -> result (list NvtxRange).
Variable JSON_stringify : list NvtxRange -> Js.text.

(** [nvtx-manager.createRangeFromSelection]: [inputBox] is what the name
    prompt returns and [now] the clock reading when the range is created. *)
Definition createRangeFromSelection (now : Z) (editor : option TextEditor)
    (inputBox : option string) (w : World) : Outcome * World :=
  match editor with
  | None =>
      (mkOutcome
         [ErrorMessage
            "Please open a Python file and select code to create an NVTX range."%string] 0,
       w)
  | Some ed =>
      if negb (String.eqb (languageId ed) "python") then
        (mkOutcome
           [ErrorMessage
              "Please open a Python file and select code to create an NVTX range."%string] 0,
         w)
      else if selectionIsEmpty (selection ed) then
        (mkOutcome
           [WarningMessage
              "No text selected. Please select a range of lines to create an NVTX range."%string]
           0,
         w)
      else
        match inputBox with
        | None => (nothingDone, w)
        | Some rangeName =>
            if isEmptyString rangeName then (nothingDone, w)
            else
              let startLine := line (start (selection ed)) + 1 in
              let endLine := line (end_ (selection ed)) + 1 in
              if startLine >? endLine then
                (mkOutcome
                   [ErrorMessage
                      "Start of selection cannot be after the end of selection."%string] 0,
                 w)
              else
                let newRange :=
                  createRange now rangeName (fsPath (editorDocument ed))
                    startLine (Some endLine) None None in
                (mkOutcome
                   [InformationMessage
                      ("NVTX Range '" ++ rangeName ++ "' added for lines "
                       ++ Js.toString startLine ++ "-" ++ Js.toString endLine
                       ++ ".")%string]
                   1,
                 addRange JSON_parse JSON_stringify newRange w)
        end
  end.

(** [nvtx-manager.toggleEnableRange] on a tree item: after a toggle the
    ranges are read again and the state of the first range with the id is
    what the message names. *)
Definition toggleEnableRange (item : option NvtxRange) (w : World)
    : Outcome * World :=
  match item with
  | None => (nothingDone, w)
  | Some rangeData =>
      let (success, w1) :=
        toggleRangeEnabled JSON_parse JSON_stringify (id rangeData) w in
      if success then
        let (ranges, w2) := readRanges JSON_parse w1 in
        match find (fun r => String.eqb (id r) (id rangeData)) ranges with
        | Some r =>
            (mkOutcome
               [InformationMessage
                  ("Range '" ++ name r ++ "' "
                   ++ (if isEnabled r then "enabled" else "disabled")
                   ++ ".")%string] 1,
             w2)
        | None => (mkOutcome [] 1, w2)
        end
      else (nothingDone, w1)
  end.

End WithStore.

End Commands.

(** ** Sample inputs *)

Definition currentFile : string := "/w/train.py".

(** A 40-line document whose every line is [    x = 1]: the first
    non-whitespace column is 4, the trimmed length 9. *)
Definition codeLine : Js.text := Js.ofString "    x = 1".
Definition sampleDocument : TextDocument := mkDoc currentFile (repeat codeLine 40).

(** The same document with lines 15 and 16 (zero-based) blank. *)
Definition sampleDocumentBlank15 : TextDocument :=
  mkDoc currentFile (repeat codeLine 15 ++ [[]; []] ++ repeat codeLine 23).

(** The sample document as delivered after [    y = 2] has been put on a new
    line after line 14: the new text is line 15, and line 16 is blank. *)
Definition sampleDocumentAfterInsert : TextDocument :=
  mkDoc currentFile
    (repeat codeLine 15 ++ [Js.ofString "    y = 2"] ++ [[]] ++ repeat codeLine 24).

Definition blockRange (s e : Z) : NvtxRange :=
  mkRange "1700000000000" "forward" currentFile block s (Some e) true.

Definition eventRange (s : Z) : NvtxRange :=
  mkRange "1700000000001" "mark" currentFile event s None true.

(** An insertion of [txt] at line [l], column [c] (zero-based). *)
Definition insertAt (l c : Z) (txt : Js.text) : ContentChange :=
  mkChange (mkVsRange (mkPos l c) (mkPos l c)) txt.

(** A deletion of the span from [(l, c)] to [(l', c')]. *)
Definition deleteSpan (l c l' c' : Z) : ContentChange :=
  mkChange (mkVsRange (mkPos l c) (mkPos l' c')) [].

(** A replacement of the span by [txt]. *)
Definition replaceSpan (l c l' c' : Z) (txt : Js.text) : ContentChange :=
  mkChange (mkVsRange (mkPos l c) (mkPos l' c')) txt.

Definition sampleWorld (file : option Js.text) : World :=
  mkWorld true file true (Some currentFile) [] 0 0.

(** A stand-in for [JSON.parse] that accepts the text [[]] and the text
    [R] (read as the one range [blockRange 10 15]) and rejects the rest. *)
Definition sampleParse (s : Js.text) : result (list NvtxRange) :=
  match s with
  | [91; 93]%N => Ok []
  | [82]%N => Ok [blockRange 10 15]
  | _ => Throw "SyntaxError: Unexpected token"
  end.

Definition sampleStringify (rs : list NvtxRange) : Js.text :=
  match rs with
  | [] => [91; 93]%N
  | _ => [82]%N
  end.

(** ** Views of the stored set used in the statements *)

Import NvtxRangesProvider.

Definition sameFile (path : string) (r : NvtxRange) : bool :=
  String.eqb (filePath r) path.

(** The groups hold, under distinct keys, the ranges seen so far by file,
    in the order seen. *)
Definition groupsOf (seen : list NvtxRange) (groups : list (string * list NvtxRange))
    : Prop :=
  NoDup (map fst groups) /\
  forall path g, In (path, g) groups <-> g = filter (sameFile path) seen /\ g <> [].

Definition groupSizes (groups : list (string * list NvtxRange)) : nat :=
  fold_right (fun entry n => (List.length (snd entry) + n)%nat) 0%nat groups.


(** ** More sample inputs *)

(** [targetRange.isEnabled = !targetRange.isEnabled]. *)
Definition toggled (r : NvtxRange) : NvtxRange :=
  setIsEnabled r (negb (isEnabled r)).

Definition disabledBlockRange (s e : Z) : NvtxRange :=
  setIsEnabled (blockRange s e) false.

(** A stand-in for the JSON codec on three values: the text [[]] is the
    empty set, [S] the set of the one enabled range [blockRange 10 15], and
    [R] the set of the same range disabled. *)
Definition toggleParse (s : Js.text) : result (list NvtxRange) :=
  match s with
  | [91; 93]%N => Ok []
  | [83]%N => Ok [blockRange 10 15]
  | [82]%N => Ok [disabledBlockRange 10 15]
  | _ => Throw "SyntaxError: Unexpected token"
  end.

Definition toggleStringify (rs : list NvtxRange) : Js.text :=
  match rs with
  | [] => [91; 93]%N
  | r :: _ => if isEnabled r then [83]%N else [82]%N
  end.

(** A Python editor on the sample document with lines 10 to 15 selected
    (zero-based 9 to 14, to column 9). *)
Definition sampleEditor : Commands.TextEditor :=
  Commands.mkEditor sampleDocument "python"
    (mkVsRange (mkPos 9 0) (mkPos 14 9)).

(** Ranges of two files, interleaved. *)
Definition otherFileRange (i : string) (s e : Z) : NvtxRange :=
  mkRange i "eval" "/w/eval.py" block s (Some e) true.

(** The decoration that covers the lines of a range in full: from column 0
    of its first line to the end of the text of its last line. *)
Definition wholeLinesDecoration (document : TextDocument) (r : NvtxRange)
    : Decoration :=
  mkDecoration
    (mkVsRange (mkPos (startLine r - 1) 0)
       (mkPos (rangeEndOf r)
          (Js.length (nth (Z.to_nat (rangeEndOf r)) (lines document) []))))
    ("**NVTX Range: " ++ name r ++ "** ("
     ++ (if isEnabled r then "Enabled" else "Disabled") ++ ")")%string.

(** The block ranges of the document's file, as the views filter them. *)
Definition blocksOf (document : TextDocument) (ranges : list NvtxRange)
    : list NvtxRange :=
  filter (fun r => String.eqb (filePath r) (fsPath document) && isBlock r) ranges.

(** A stale range: its last line is past the end of the sample document. *)
Definition staleRange : NvtxRange :=
  mkRange "3" "stale" currentFile block 38 (Some 45) true.

Definition staleParse (s : Js.text) : result (list NvtxRange) :=
  match s with
  | [83]%N => Ok [blockRange 10 15; staleRange]
  | _ => Ok []
  end.

(** ** Proof steps used throughout *)

(** Split on the integer tests of the goal and close what arithmetic closes. *)
Ltac decide_tests :=
  repeat (simpl in *;
          match goal with
          | |- context [?a >? ?b] => rewrite (Z.gtb_ltb a b)
          | |- context [?a <? ?b] => destruct (Z.ltb_spec a b)
          | |- context [?a <=? ?b] => destruct (Z.leb_spec a b)
          | |- context [?a =? ?b] => destruct (Z.eqb_spec a b)
          end);
  simpl in *; try lia; try congruence; try reflexivity.

(** Split on the test of a conditional in the goal. *)
Ltac split_if :=
  match goal with
  | |- context [if ?b then _ else _] => destruct b
  end.

(** Split on the scrutinee of a [match] in the goal. *)
Ltac split_match :=
  match goal with
  | |- context [match ?x with _ => _ end] => destruct x
  end.

(** ** Facts about the text functions *)

Lemma searchFrom_before (s : Js.text) : forall i c,
  0 <= i ->
  (Js.searchFrom i s =? -1) || (c <=? Js.searchFrom i s)
  = forallb Js.isWhitespace (firstn (Z.to_nat (c - i)) s).
Proof.
  induction s as [|x s IH]; intros i c Hi; simpl.
  - now rewrite firstn_nil.
  - destruct (Js.isWhitespace x) eqn:Hx.
    + rewrite (IH (i + 1) c) by lia.
      destruct (Z_le_gt_dec (c - i) 0) as [Hle|Hgt].
      * replace (Z.to_nat (c - i)) with 0%nat by lia.
        replace (Z.to_nat (c - (i + 1))) with 0%nat by lia.
        reflexivity.
      * replace (Z.to_nat (c - i)) with (S (Z.to_nat (c - (i + 1)))) by lia.
        simpl. now rewrite Hx.
    + replace (i =? -1) with false by (symmetry; apply Z.eqb_neq; lia).
      simpl.
      destruct (Z_le_gt_dec (c - i) 0) as [Hle|Hgt].
      * replace (Z.to_nat (c - i)) with 0%nat by lia.
        simpl. apply Z.leb_le. lia.
      * replace (Z.to_nat (c - i)) with (S (Z.to_nat (c - i - 1))) by lia.
        simpl. rewrite Hx. simpl. apply Z.leb_gt. lia.
Qed.

Lemma isInsertionBeforeContent_blankBefore document lineNumber col lineText :
  lineAt document lineNumber = Ok lineText ->
  isInsertionBeforeContent document lineNumber col = Ok (blankBefore col lineText).
Proof.
  intros H. unfold isInsertionBeforeContent, blankBefore, Js.searchNonWhitespace.
  rewrite H. simpl. f_equal.
  rewrite (searchFrom_before lineText 0 col) by lia.
  now rewrite Z.sub_0_r.
Qed.

Lemma searchFrom_firstNonWhitespaceColumn (s : Js.text) : forall i,
  0 <= i ->
  Js.searchFrom i s
  = match firstNonWhitespaceColumn s with
    | Some f => i + f
    | None => -1
    end /\
  (forall f, firstNonWhitespaceColumn s = Some f -> 0 <= f).
Proof.
  induction s as [|x s IH]; intros i Hi; simpl.
  - split; [reflexivity | discriminate].
  - destruct (Js.isWhitespace x).
    + destruct (IH (i + 1)) as [IH1 IH2]; [lia|].
      rewrite IH1. destruct (firstNonWhitespaceColumn s) as [f|]; simpl.
      * specialize (IH2 f eq_refl). split; [lia|]. intros f' [= <-]. lia.
      * split; [reflexivity | discriminate].
    + split; [lia|]. intros f [= <-]. lia.
Qed.

Lemma isInsertionBeforeContent_atOrBeforeContent document lineNumber col lineText :
  lineAt document lineNumber = Ok lineText ->
  isInsertionBeforeContent document lineNumber col = Ok (atOrBeforeContent col lineText).
Proof.
  intros H. unfold isInsertionBeforeContent, atOrBeforeContent, Js.searchNonWhitespace.
  rewrite H. simpl. f_equal.
  destruct (searchFrom_firstNonWhitespaceColumn lineText 0) as [Hs Hf]; [lia|].
  rewrite Hs. destruct (firstNonWhitespaceColumn lineText) as [f|]; [|reflexivity].
  specialize (Hf f eq_refl). simpl.
  replace (f =? -1) with false by (symmetry; apply Z.eqb_neq; lia). reflexivity.
Qed.

Lemma atOrBeforeContent_blankBefore document lineNumber col lineText :
  lineAt document lineNumber = Ok lineText ->
  atOrBeforeContent col lineText = blankBefore col lineText.
Proof.
  intros H.
  pose proof (isInsertionBeforeContent_atOrBeforeContent _ _ col _ H) as H1.
  pose proof (isInsertionBeforeContent_blankBefore _ _ col _ H) as H2.
  congruence.
Qed.

Lemma hasContent_app s t : hasContent (s ++ t) = hasContent s || hasContent t.
Proof. apply existsb_app. Qed.

Lemma trimEnd_snoc s x :
  Js.trimEnd (s ++ [x]) = if Js.isWhitespace x then Js.trimEnd s else s ++ [x].
Proof.
  unfold Js.trimEnd. rewrite rev_app_distr. simpl.
  destruct (Js.isWhitespace x); [reflexivity|].
  simpl. now rewrite rev_involutive.
Qed.

Lemma trimEnd_length_hasContentFrom (s : Js.text) : forall n : nat,
  (Z.of_nat n <? Js.length (Js.trimEnd s)) = hasContent (skipn n s).
Proof.
  induction s as [|x s IH] using rev_ind; intros n.
  - rewrite skipn_nil. simpl. apply Z.ltb_ge. unfold Js.length. simpl. lia.
  - rewrite trimEnd_snoc, skipn_app, hasContent_app.
    destruct (Js.isWhitespace x) eqn:Hx.
    + rewrite IH.
      assert (Hlast : hasContent (skipn (n - List.length s) [x]) = false).
      { destruct (n - List.length s)%nat; simpl;
          [now rewrite Hx | now rewrite skipn_nil]. }
      rewrite Hlast. now rewrite orb_false_r.
    + unfold Js.length. rewrite length_app. simpl.
      destruct (le_gt_dec n (List.length s)) as [Hle|Hgt].
      * replace (n - List.length s)%nat with 0%nat by lia.
        simpl. rewrite Hx. simpl. rewrite orb_true_r. apply Z.ltb_lt. lia.
      * rewrite skipn_all2 by lia.
        replace (n - List.length s)%nat with (S (n - List.length s - 1)) by lia.
        simpl. rewrite skipn_nil. simpl. apply Z.ltb_ge. lia.
Qed.

Lemma trimEnd_hasContentFrom col s :
  0 <= col ->
  (col <? Js.length (Js.trimEnd s)) = hasContentFrom col s.
Proof.
  intros H. unfold hasContentFrom.
  rewrite <- trimEnd_length_hasContentFrom. now rewrite Z2Nat.id.
Qed.

Lemma hasContent_trimStart s : hasContent (Js.trimStart s) = hasContent s.
Proof.
  induction s as [|x s IH]; simpl; [reflexivity|].
  destruct (Js.isWhitespace x) eqn:Hx; simpl; rewrite ?Hx; simpl;
    [exact IH|reflexivity].
Qed.

Lemma hasContent_rev s : hasContent (rev s) = hasContent s.
Proof.
  induction s as [|x s IH]; simpl; [reflexivity|].
  rewrite hasContent_app, IH. simpl. rewrite orb_false_r. apply orb_comm.
Qed.

Lemma trimStart_length_hasContent s :
  (Js.length (Js.trimStart s) >? 0) = hasContent s.
Proof.
  induction s as [|x s IH]; simpl; [reflexivity|].
  destruct (Js.isWhitespace x) eqn:Hx; simpl; [exact IH|].
  unfold Js.length. apply Z.gtb_lt. simpl List.length. lia.
Qed.

Lemma trim_length_hasContent s : (Js.length (Js.trim s) >? 0) = hasContent s.
Proof.
  unfold Js.trim. rewrite trimStart_length_hasContent.
  unfold Js.trimEnd. now rewrite hasContent_rev, hasContent_trimStart, hasContent_rev.
Qed.

Lemma lineAt_in_range d n :
  0 <= n < lineCount d -> exists t, lineAt d n = Ok t.
Proof.
  intros [H0 H1]. unfold lineAt.
  apply Z.leb_le in H0. apply Z.ltb_lt in H1. rewrite H0, H1. simpl. eauto.
Qed.

(** ** Facts about the engine *)

Lemma filePath_test_same r : String.eqb (filePath r) (filePath r) = true.
Proof. apply String.eqb_refl. Qed.

Lemma validateRangeBounds_startLine r : 1 <= startLine (validateRangeBounds r).
Proof.
  unfold validateRangeBounds. destruct r as [i n f t s [e|] b]; simpl.
  - destruct (s <? 1) eqn:Hs; simpl;
      [| apply Z.ltb_ge in Hs];
      destruct (negb (e =? 0) && _); simpl; lia.
  - destruct (s <? 1) eqn:Hs; simpl; [lia | apply Z.ltb_ge in Hs; lia].
Qed.

Lemma validateRangeBounds_endLine r e :
  endLine (validateRangeBounds r) = Some e -> e <> 0 ->
  startLine (validateRangeBounds r) <= e.
Proof.
  unfold validateRangeBounds. destruct r as [i n f t s [e0|] b]; simpl.
  - destruct (s <? 1) eqn:Hs; simpl;
      destruct (e0 =? 0) eqn:H0; simpl;
      try (destruct (e0 <? _) eqn:Hlt; simpl);
      intros [= <-] Hne;
      try apply Z.eqb_eq in H0; try apply Z.ltb_ge in Hlt; try lia.
  - destruct (s <? 1); simpl; discriminate.
Qed.

(** Moving and then clamping, for line fields that are not 0 before or
    after the move. *)
Lemma validate_apply_clamped r dStart dEnd :
  (forall e, endLine r = Some e -> e <> 0 /\ e + dEnd <> 0) ->
  validateRangeBounds (applyAdjustment r (mkAdj true dStart (Some dEnd)))
  = withLines r (Z.max 1 (startLine r + dStart))
      (option_map (fun e => Z.max (Z.max 1 (startLine r + dStart)) (e + dEnd))
         (endLine r)).
Proof.
  intros He. destruct r as [i n f t s [e|] b]; simpl in *.
  - destruct (He e eq_refl) as [Hne Hne'].
    unfold applyAdjustment, validateRangeBounds, withLines, setEndLine, setStartLine.
    decide_tests; f_equal; try lia; f_equal; lia.
  - unfold applyAdjustment, validateRangeBounds, withLines, setStartLine.
    decide_tests; f_equal; lia.
Qed.

(** No clamping is needed once the moved boundaries are in order. *)
Lemma validate_apply_exact r dStart dEnd :
  1 <= startLine r + dStart ->
  (forall e, endLine r = Some e -> e <> 0 /\ startLine r + dStart <= e + dEnd) ->
  validateRangeBounds (applyAdjustment r (mkAdj true dStart (Some dEnd)))
  = shiftLines r dStart dEnd.
Proof.
  intros Hs He. rewrite validate_apply_clamped.
  - unfold shiftLines. rewrite Z.max_r by lia.
    destruct (endLine r) as [e|] eqn:Hend; simpl; [|reflexivity].
    destruct (He e eq_refl) as [_ Hle]. now rewrite Z.max_r by lia.
  - intros e Hend. destruct (He e Hend). lia.
Qed.

Lemma validateRangeBounds_valid r : validRange r -> validateRangeBounds r = r.
Proof.
  intros [Hs He]. destruct r as [i n f t s [e|] b]; simpl in *.
  - specialize (He e eq_refl). unfold validateRangeBounds. decide_tests.
  - unfold validateRangeBounds. decide_tests.
Qed.

Lemma shiftLines_end_only r e d :
  endLine r = Some e -> shiftLines r 0 d = setEndLine r (Some (e + d)).
Proof.
  intros H. unfold shiftLines, withLines, setEndLine. rewrite H. simpl.
  now rewrite Z.add_0_r.
Qed.

Lemma rangeEndOf_valid r e :
  validRange r -> endLine r = Some e -> rangeEndOf r = e - 1.
Proof.
  intros [Hs Hv] He. specialize (Hv e He).
  unfold rangeEndOf. rewrite He. simpl.
  destruct (Z.eqb_spec e 0); [lia|reflexivity].
Qed.

Lemma adjustRange_same_file change document r :
  adjustRange (filePath r) change document r =
  bindR (calculateRangeAdjustment (line (start (range change))) (netLineChange change)
           (startLine r - 1) (rangeEndOf r) change document)
        (fun adjustment =>
           if shouldModify adjustment
           then Ok (validateRangeBounds (applyAdjustment r adjustment), true)
           else Ok (validateRangeBounds r, false)).
Proof.
  unfold adjustRange, rangeEndOf. rewrite filePath_test_same. reflexivity.
Qed.

Lemma adjustRange_other_file cur change document r :
  filePath r <> cur -> adjustRange cur change document r = Ok (r, false).
Proof.
  intros H. unfold adjustRange.
  apply String.eqb_neq in H. now rewrite H.
Qed.

Lemma calculate_above L net rs re change document :
  L < rs ->
  calculateRangeAdjustment L net rs re change document
  = Ok (mkAdj true net (Some net)).
Proof. intros H. unfold calculateRangeAdjustment. decide_tests. Qed.

Lemma calculate_at_start L net re change document lineText :
  lineAt document L = Ok lineText ->
  calculateRangeAdjustment L net L re change document
  = Ok (if atOrBeforeContent (character (start (range change))) lineText
        then mkAdj true net (Some net)
        else mkAdj true 0 (Some net)).
Proof.
  intros H. unfold calculateRangeAdjustment, handleChangeAtRangeStart.
  rewrite Z.ltb_irrefl, Z.eqb_refl.
  rewrite (isInsertionBeforeContent_atOrBeforeContent _ _ _ _ H). simpl.
  now destruct (atOrBeforeContent _ _).
Qed.

(** An edit that lies wholly above the range cannot bring its start below
    line 2. *)
Lemma edit_entirely_above_keeps_start change r :
  0 <= line (start (range change)) ->
  line (end_ (range change)) < startLine r - 1 ->
  2 <= startLine r + netLineChange change.
Proof.
  intros H0 H1. unfold netLineChange, linesAdded, linesRemoved, Js.countNewlines.
  lia.
Qed.

Lemma calculate_inside L net rs re change document :
  rs < L < re ->
  calculateRangeAdjustment L net rs re change document
  = Ok (mkAdj true 0 (Some net)).
Proof. intros H. unfold calculateRangeAdjustment. decide_tests. Qed.

Lemma calculate_at_end net rs re change document :
  rs < re ->
  calculateRangeAdjustment re net rs re change document
  = handleChangeAtRangeEnd change document re net.
Proof.
  intros H. unfold calculateRangeAdjustment.
  rewrite Z.eqb_refl. decide_tests.
Qed.

Lemma calculate_below L net rs re change document :
  rs < L -> re < L ->
  calculateRangeAdjustment L net rs re change document = Ok (mkAdj false 0 None).
Proof. intros H1 H2. unfold calculateRangeAdjustment. decide_tests. Qed.

Lemma shouldExpandForNewlineInsertion_spec document L col currentLineText :
  lineAt document L = Ok currentLineText -> 0 <= col ->
  shouldExpandForNewlineInsertion document L col
  = Ok (hasContent (nth (Z.to_nat (L + 1)) (lines document) [])
        || hasContentFrom col currentLineText).
Proof.
  intros H Hc. unfold shouldExpandForNewlineInsertion. rewrite H. simpl.
  assert (HL : 0 <= L).
  { unfold lineAt in H. destruct (0 <=? L) eqn:E; [now apply Z.leb_le|discriminate]. }
  destruct (L + 1 <? lineCount document) eqn:Hn.
  - unfold lineAt. rewrite Hn.
    replace (0 <=? L + 1) with true by (symmetry; apply Z.leb_le; lia).
    simpl. now rewrite trim_length_hasContent, trimEnd_hasContentFrom.
  - simpl. apply Z.ltb_ge in Hn. unfold lineCount in Hn.
    rewrite (nth_overflow (lines document)) by lia.
    simpl. now rewrite trimEnd_hasContentFrom.
Qed.

(** ** Facts about the processing of a change event *)

Lemma framed_refl cur r : framed cur r r.
Proof. unfold framed. tauto. Qed.

Lemma framed_trans cur r1 r2 r3 :
  framed cur r1 r2 -> framed cur r2 r3 -> framed cur r1 r3.
Proof.
  unfold framed.
  intros (A1 & A2 & A3 & A4 & A5 & A6 & A7) (B1 & B2 & B3 & B4 & B5 & B6 & B7).
  repeat split; try congruence.
  - auto.
  - intros Hne. rewrite B7, A7; congruence.
Qed.

Lemma validateRangeBounds_framed cur r :
  filePath r = cur -> framed cur r (validateRangeBounds r).
Proof.
  intros Hf. unfold framed, validateRangeBounds.
  destruct r as [i n f t s [e|] b]; simpl in *;
    destruct (s <? 1); simpl;
    try destruct (negb (e =? 0) && _); simpl;
    repeat split; try congruence; try discriminate.
Qed.

Lemma applyAdjustment_framed cur r adjustment :
  filePath r = cur -> framed cur r (applyAdjustment r adjustment).
Proof.
  intros Hf. unfold framed, applyAdjustment.
  destruct r as [i n f t s [e|] b], adjustment as [m ds [de|]]; simpl in *;
    try destruct (negb (e =? 0)); simpl;
    repeat split; try congruence; try discriminate.
Qed.

Lemma applyAdjustment_filePath r adjustment :
  filePath (applyAdjustment r adjustment) = filePath r.
Proof.
  unfold applyAdjustment.
  destruct r as [i n f t s [e|] b], adjustment as [m ds [de|]]; simpl;
    try destruct (negb (e =? 0)); reflexivity.
Qed.

Lemma adjustRange_framed cur change document r r' modified :
  adjustRange cur change document r = Ok (r', modified) -> framed cur r r'.
Proof.
  destruct (String.eqb_spec (filePath r) cur) as [Heq|Hne].
  - subst cur. rewrite adjustRange_same_file.
    destruct (calculateRangeAdjustment _ _ _ _ _ _) as [adjustment|m]; simpl;
      [|discriminate].
    destruct (shouldModify adjustment); intros [= <- <-].
    + eapply framed_trans.
      * apply applyAdjustment_framed. reflexivity.
      * apply validateRangeBounds_framed. apply applyAdjustment_filePath.
    + now apply validateRangeBounds_framed.
  - rewrite adjustRange_other_file by assumption.
    intros [= <- <-]. apply framed_refl.
Qed.

Lemma mapR_Forall2 {A B} (f : A -> result B) (l : list A) : forall l',
  mapR f l = Ok l' -> Forall2 (fun a b => f a = Ok b) l l'.
Proof.
  induction l as [|a l IH]; simpl; intros l' H.
  - injection H as <-. constructor.
  - destruct (f a) as [b|m] eqn:Ha; [|discriminate].
    destruct (mapR f l) as [bs|m]; [|discriminate].
    injection H as <-. constructor; auto.
Qed.

Lemma mapR_total {A B} (f : A -> result B) (l : list A) :
  (forall a, In a l -> exists b, f a = Ok b) -> exists l', mapR f l = Ok l'.
Proof.
  induction l as [|a l IH]; simpl; intros H.
  - eauto.
  - destruct (H a (or_introl eq_refl)) as [b ->].
    destruct IH as [bs ->]; eauto.
Qed.

Lemma processChange_framed cur document st change st' :
  processChange cur document st change = Ok st' ->
  Forall2 (framed cur) (fst st) (fst st').
Proof.
  unfold processChange. destruct (netLineChange change =? 0).
  - intros [= <-]. induction (fst st); constructor; auto using framed_refl.
  - destruct (mapR _ (fst st)) as [rs|m] eqn:Hmap; simpl; [|discriminate].
    intros [= <-]. simpl.
    apply mapR_Forall2 in Hmap. clear -Hmap.
    induction Hmap as [|r [r' b] l l' H _ IH]; simpl; constructor; auto.
    eapply adjustRange_framed; eauto.
Qed.

Lemma Forall2_framed_trans cur (l1 l2 l3 : list NvtxRange) :
  Forall2 (framed cur) l1 l2 -> Forall2 (framed cur) l2 l3 ->
  Forall2 (framed cur) l1 l3.
Proof.
  intros H. revert l3.
  induction H as [|a b l1 l2 Hab _ IH]; intros l3 H3; inversion H3; subst;
    constructor; eauto using framed_trans.
Qed.

Lemma Forall2_framed_refl cur (l : list NvtxRange) : Forall2 (framed cur) l l.
Proof. induction l; constructor; auto using framed_refl. Qed.

Lemma processChanges_framed cur document changes : forall st st',
  processChanges cur document changes st = Ok st' ->
  Forall2 (framed cur) (fst st) (fst st').
Proof.
  induction changes as [|change rest IH]; simpl; intros st st' H.
  - injection H as <-. apply Forall2_framed_refl.
  - destruct (processChange cur document st change) as [st1|m] eqn:H1;
      [|discriminate].
    eapply Forall2_framed_trans.
    + eapply processChange_framed; eauto.
    + eauto.
Qed.

Lemma processChanges_zero_net cur document changes : forall st,
  Forall (fun change => netLineChange change = 0) changes ->
  processChanges cur document changes st = Ok st.
Proof.
  induction changes as [|change rest IH]; simpl; intros st H.
  - reflexivity.
  - inversion H as [|? ? H0 Hrest]; subst.
    unfold processChange. rewrite H0. simpl. auto.
Qed.

(** The engine only throws through [lineAt]: on a change whose start line is
    a line of the document it returns. *)
Lemma calculateRangeAdjustment_total L net rs re change document :
  0 <= L < lineCount document ->
  exists adjustment,
    calculateRangeAdjustment L net rs re change document = Ok adjustment.
Proof.
  intros HL. destruct (lineAt_in_range document L HL) as [t Ht].
  unfold calculateRangeAdjustment.
  destruct (L <? rs); [eauto|].
  destruct (L =? rs).
  { unfold handleChangeAtRangeStart, isInsertionBeforeContent. rewrite Ht. simpl.
    split_if; eauto. }
  destruct ((L >? rs) && (L <? re)); [eauto|].
  destruct (L =? re); [|eauto].
  unfold handleChangeAtRangeEnd, shouldExpandRangeAtEnd.
  destruct (Js.includesNewline (text change) && (net >? 0)).
  - unfold shouldExpandForNewlineInsertion. rewrite Ht. simpl.
    destruct (L + 1 <? lineCount document) eqn:Hn.
    + apply Z.ltb_lt in Hn.
      destruct (lineAt_in_range document (L + 1)) as [t' ->]; [lia|].
      simpl. split_if; eauto.
    + simpl. split_if; eauto.
  - unfold isInsertionAfterContent. rewrite Ht. simpl.
    split_if; eauto.
Qed.

Lemma adjustRange_total cur change document r :
  0 <= line (start (range change)) < lineCount document ->
  exists out, adjustRange cur change document r = Ok out.
Proof.
  intros HL. unfold adjustRange.
  destruct (negb (String.eqb (filePath r) cur)); [eauto|].
  edestruct calculateRangeAdjustment_total as [adjustment ->]; [exact HL|].
  simpl. destruct (shouldModify adjustment); eauto.
Qed.

Lemma processChanges_total cur document changes : forall st,
  Forall (fun change => 0 <= line (start (range change)) < lineCount document)
    changes ->
  exists st', processChanges cur document changes st = Ok st'.
Proof.
  induction changes as [|change rest IH]; simpl; intros st H.
  - eauto.
  - inversion H as [|? ? H0 Hrest]; subst.
    unfold processChange. destruct (netLineChange change =? 0); [auto|].
    destruct (mapR_total (adjustRange cur change document) (fst st)) as [rs ->].
    { intros r _. now apply adjustRange_total. }
    simpl. auto.
Qed.

(** Every range that [adjustRange] returns for the edited file has been
    through [validateRangeBounds]. *)
Lemma adjustRange_startLine change document r r' modified :
  adjustRange (filePath r) change document r = Ok (r', modified) ->
  1 <= startLine r'.
Proof.
  rewrite adjustRange_same_file.
  destruct (calculateRangeAdjustment _ _ _ _ _ _) as [adjustment|m]; simpl;
    [|discriminate].
  destruct (shouldModify adjustment); intros [= <- <-];
    apply validateRangeBounds_startLine.
Qed.

Lemma adjustRange_endLine change document r r' modified e :
  adjustRange (filePath r) change document r = Ok (r', modified) ->
  endLine r' = Some e -> e <> 0 -> startLine r' <= e.
Proof.
  rewrite adjustRange_same_file.
  destruct (calculateRangeAdjustment _ _ _ _ _ _) as [adjustment|m]; simpl;
    [|discriminate].
  destruct (shouldModify adjustment); intros [= <- <-];
    apply validateRangeBounds_endLine.
Qed.

(** ** Facts about the store *)

Lemma toString_injective a b : Js.toString a = Js.toString b -> a = b.
Proof.
  unfold Js.toString. intros H.
  apply DecimalZ.to_int_inj.
  assert (Hs : Some (Z.to_int a) = Some (Z.to_int b))
    by (rewrite <- !NilEmpty.isi; now rewrite H).
  now injection Hs.
Qed.

Lemma generateUniqueId_collides_iff a b :
  generateUniqueId a = generateUniqueId b <-> a = b.
Proof.
  split; [apply toString_injective | now intros ->].
Qed.

Lemma filter_keeps_length_iff {A} (p : A -> bool) (l : list A) :
  List.length (filter p l) = List.length l <-> forall a, In a l -> p a = true.
Proof.
  induction l as [|a l IH]; simpl.
  - split; [intros _ ? []|reflexivity].
  - pose proof (filter_length_le p l) as Hle.
    destruct (p a) eqn:Hp; simpl.
    + split.
      * intros H b [<-|Hb]; [assumption|]. apply IH; [lia|assumption].
      * intros H. f_equal. apply IH. auto.
    + split.
      * intros H. lia.
      * intros H. specialize (H a (or_introl eq_refl)). congruence.
Qed.

Lemma mutateFirst_found rangeId f ranges :
  (exists ranges', mutateFirst rangeId f ranges = Some ranges') <->
  (exists r, In r ranges /\ id r = rangeId).
Proof.
  induction ranges as [|r rest IH]; simpl.
  - split; [intros [? [=]] | intros [? [[] _]]].
  - destruct (String.eqb_spec (id r) rangeId) as [Heq|Hne].
    + split; eauto.
    + split.
      * intros [ranges' H].
        destruct (mutateFirst rangeId f rest) as [rest'|] eqn:Hrest; [|discriminate].
        destruct IH as [IH _]. destruct IH as [r0 [Hin Hid]]; eauto.
      * intros [r0 [[<-|Hin] Hid]]; [contradiction|].
        destruct IH as [_ IH]. destruct IH as [rest' ->]; eauto.
Qed.

Lemma mutateFirst_length rangeId f ranges ranges' :
  mutateFirst rangeId f ranges = Some ranges' ->
  List.length ranges' = List.length ranges.
Proof.
  revert ranges'. induction ranges as [|r rest IH]; simpl; intros ranges' H.
  - discriminate.
  - destruct (String.eqb (id r) rangeId).
    + now injection H as <-.
    + destruct (mutateFirst rangeId f rest) as [rest'|]; [|discriminate].
      injection H as <-. simpl. f_equal. auto.
Qed.

Section StoreFacts.

Variable JSON_parse : Js.text -> result (list NvtxRange).
Variable JSON_stringify : list NvtxRange -> Js.text.

(** Reading never writes: at most it reports. *)
Lemma readRanges_world w :
  snd (readRanges JSON_parse w) = w \/
  exists msg, snd (readRanges JSON_parse w) = report msg w.
Proof.
  unfold readRanges.
  destruct (getRangesFilePath w); simpl; [|eauto].
  destruct (rangesFile w) as [fileContent|]; [|auto].
  destruct (isEmptyText (Js.trim fileContent)); simpl; [auto|].
  destruct (JSON_parse (Js.trim fileContent)); simpl; eauto.
Qed.

Lemma readRanges_rangesFile w :
  rangesFile (snd (readRanges JSON_parse w)) = rangesFile w.
Proof.
  destruct (readRanges_world w) as [->|[msg ->]]; reflexivity.
Qed.

Lemma readRanges_signals w :
  rangesChangedSignals (snd (readRanges JSON_parse w)) = rangesChangedSignals w.
Proof.
  destruct (readRanges_world w) as [->|[msg ->]]; reflexivity.
Qed.

(** Writing stores the serialised set, or reports and leaves the file. *)
Lemma writeRanges_rangesFile ranges w :
  rangesFile (writeRanges JSON_stringify ranges w) = Some (JSON_stringify ranges) \/
  rangesFile (writeRanges JSON_stringify ranges w) = rangesFile w.
Proof.
  unfold writeRanges.
  destruct (getRangesFilePath w); simpl; [|auto].
  destruct (diskWritable w); simpl; auto.
Qed.

End StoreFacts.

Lemma filter_drops_iff rangeId ranges :
  negb (Nat.eqb
          (List.length (filter (fun r => negb (String.eqb (id r) rangeId)) ranges))
          (List.length ranges)) = true
  <-> exists r, In r ranges /\ id r = rangeId.
Proof.
  rewrite negb_true_iff, Nat.eqb_neq.
  split.
  - intros Hlen.
    destruct (existsb (fun r => String.eqb (id r) rangeId) ranges) eqn:Hex.
    + apply existsb_exists in Hex. destruct Hex as [r [Hin Hid]].
      apply String.eqb_eq in Hid. eauto.
    + exfalso. apply Hlen. apply filter_keeps_length_iff.
      intros r Hin. apply negb_true_iff.
      destruct (String.eqb (id r) rangeId) eqn:Hid; [|reflexivity].
      rewrite <- Hex. symmetry. apply existsb_exists. eauto.
  - intros [r [Hin Hid]] Hlen.
    rewrite filter_keeps_length_iff in Hlen.
    specialize (Hlen r Hin). apply negb_true_iff in Hlen.
    apply String.eqb_neq in Hlen. contradiction.
Qed.

Lemma mutateFirst_None_iff rangeId f ranges :
  mutateFirst rangeId f ranges = None <->
  ~ exists r, In r ranges /\ id r = rangeId.
Proof.
  rewrite <- (mutateFirst_found rangeId f ranges).
  destruct (mutateFirst rangeId f ranges) as [ranges'|].
  - split; [discriminate|]. intros H. exfalso. apply H. eauto.
  - split; [|reflexivity]. intros _ [ranges' H]. discriminate.
Qed.

(** ** The boundary rules of the engine *)

(** C1 (amended).  For a well-formed block range of the edited file and an
    edit whose start line is the range's start line: when the insertion
    column is at or before the first non-whitespace column of that line's
    text, or the line is blank, both [startLine] and [endLine] move by
    [netLineChange] if the moved [startLine] is still at least 1, and are
    otherwise clamped, [startLine] to 1 and [endLine] to at least 1; when
    the column is after the first non-whitespace column, [startLine] stays
    and only [endLine] moves by [netLineChange] if that leaves it at
    least [startLine], and is otherwise clamped to [startLine].
    (The clamped cases are stated for a moved [endLine] other than 0.)
    The text inspected is the start line's text in the document that comes
    with the event, and the outcome depends only on its first
    [insertionColumn] characters, which an edit at that column does not
    touch: any snapshot that agrees on them gives the same adjustment. *)
Theorem at_start_rule cur change document r e lineText :
  filePath r = cur -> endLine r = Some e -> validRange r ->
  line (start (range change)) = startLine r - 1 ->
  lineAt document (startLine r - 1) = Ok lineText ->
  (atOrBeforeContent (character (start (range change))) lineText = true ->
   (1 <= startLine r + netLineChange change ->
    adjustRange cur change document r
    = Ok (shiftLines r (netLineChange change) (netLineChange change), true)) /\
   (startLine r + netLineChange change < 1 -> e + netLineChange change <> 0 ->
    adjustRange cur change document r
    = Ok (withLines r 1 (Some (Z.max 1 (e + netLineChange change))), true))) /\
  (atOrBeforeContent (character (start (range change))) lineText = false ->
   (startLine r <= e + netLineChange change ->
    adjustRange cur change document r
    = Ok (setEndLine r (Some (e + netLineChange change)), true)) /\
   (e + netLineChange change < startLine r -> e + netLineChange change <> 0 ->
    adjustRange cur change document r
    = Ok (setEndLine r (Some (startLine r)), true))) /\
  (forall document0 lineText0,
     lineAt document0 (startLine r - 1) = Ok lineText0 ->
     firstn (Z.to_nat (character (start (range change)))) lineText0
     = firstn (Z.to_nat (character (start (range change)))) lineText ->
     adjustRange cur change document0 r = adjustRange cur change document r).
Proof.
  intros <- He [Hs Hv] HL Hline. specialize (Hv e He).
  rewrite !adjustRange_same_file, HL.
  rewrite (calculate_at_start _ _ _ _ _ _ Hline).
  split; [|split].
  - intros Hb. rewrite Hb. simpl. split.
    + intros Hn. rewrite validate_apply_exact; [reflexivity|lia|].
      intros e' He'. rewrite He in He'. injection He' as <-. lia.
    + intros Hn Hz. rewrite validate_apply_clamped.
      * rewrite He. simpl. now rewrite !(Z.max_l 1) by lia.
      * intros e' He'. rewrite He in He'. injection He' as <-. lia.
  - intros Hb. rewrite Hb. simpl. split.
    + intros Hn. rewrite validate_apply_exact; [|lia|].
      * now rewrite (shiftLines_end_only r e).
      * intros e' He'. rewrite He in He'. injection He' as <-. lia.
    + intros Hn Hz. rewrite validate_apply_clamped.
      * rewrite He. simpl. rewrite Z.add_0_r, (Z.max_r 1) by lia.
        now rewrite Z.max_l by lia.
      * intros e' He'. rewrite He in He'. injection He' as <-. lia.
  - intros document0 lineText0 Hline0 Hprefix.
    rewrite adjustRange_same_file, HL.
    rewrite (calculate_at_start _ _ _ _ _ _ Hline0).
    rewrite (atOrBeforeContent_blankBefore _ _ _ _ Hline0).
    rewrite (atOrBeforeContent_blankBefore _ _ _ _ Hline).
    unfold blankBefore. now rewrite Hprefix.
Qed.

(** An edit that puts [y] and a line break at column 0 of line 10, whose
    text starts at column 4, moves the range 10..15 to 11..16. *)
Lemma at_start_rule_witness :
  adjustRange currentFile (insertAt 9 0 (Js.ofString "y" ++ [Js.LF]))
    sampleDocument (blockRange 10 15)
  = Ok (blockRange 11 16, true).
Proof.
  destruct (at_start_rule currentFile (insertAt 9 0 (Js.ofString "y" ++ [Js.LF]))
              sampleDocument (blockRange 10 15) 15 codeLine) as (Hboth & _ & _).
  - reflexivity.
  - reflexivity.
  - split; simpl; [lia | intros e [= <-]; lia].
  - reflexivity.
  - reflexivity.
  - apply (proj1 (Hboth eq_refl)). simpl; lia.
Defined.

(** C1 as stated fails where the moved boundary is clamped: a deletion that
    starts inside the text of line 10 and runs to line 31 has
    [netLineChange = -21]; the claim puts [endLine] at [15 - 21], the code
    at [startLine]. *)
Lemma at_start_rule_counterexample :
  netLineChange (deleteSpan 9 8 30 0) = -21 /\
  line (start (range (deleteSpan 9 8 30 0))) = startLine (blockRange 10 15) - 1 /\
  lineAt sampleDocument 9 = Ok codeLine /\
  firstNonWhitespaceColumn codeLine = Some 4 /\
  atOrBeforeContent (character (start (range (deleteSpan 9 8 30 0)))) codeLine = false /\
  adjustRange currentFile (deleteSpan 9 8 30 0) sampleDocument (blockRange 10 15)
  = Ok (blockRange 10 10, true) /\
  blockRange 10 10
  <> setEndLine (blockRange 10 15) (Some (15 + netLineChange (deleteSpan 9 8 30 0))).
Proof. repeat split; try reflexivity. discriminate. Qed.

(** C2 (amended).  For a well-formed block range of the edited file whose
    end line is below its start line, and an edit that starts on the end
    line, whose text holds a line break and whose [netLineChange] is
    positive: [endLine] grows by [netLineChange] exactly when the line that
    follows the edit's start line in the event's document has non-blank
    content, or the start line has non-blank content at or after the
    insertion column; when neither holds the range is returned as it was. *)
Theorem at_end_rule_newline cur change document r e currentLineText :
  filePath r = cur -> endLine r = Some e -> validRange r ->
  startLine r < e ->
  line (start (range change)) = e - 1 ->
  0 <= character (start (range change)) ->
  Js.includesNewline (text change) = true ->
  0 < netLineChange change ->
  lineAt document (e - 1) = Ok currentLineText ->
  exists r',
    adjustRange cur change document r
    = Ok (r', hasContent (nth (Z.to_nat e) (lines document) [])
              || hasContentFrom (character (start (range change))) currentLineText) /\
    (hasContent (nth (Z.to_nat e) (lines document) [])
     || hasContentFrom (character (start (range change))) currentLineText = true ->
     r' = setEndLine r (Some (e + netLineChange change))) /\
    (hasContent (nth (Z.to_nat e) (lines document) [])
     || hasContentFrom (character (start (range change))) currentLineText = false ->
     r' = r) /\
    (endLine r' = Some (e + netLineChange change) <->
     hasContent (nth (Z.to_nat e) (lines document) [])
     || hasContentFrom (character (start (range change))) currentLineText = true).
Proof.
  intros <- He Hvalid Hlt HL Hcol Hnl Hnet Hline.
  pose proof Hvalid as [Hs Hv]. specialize (Hv e He).
  rewrite adjustRange_same_file, HL.
  rewrite (rangeEndOf_valid r e Hvalid He), calculate_at_end by lia.
  unfold handleChangeAtRangeEnd, shouldExpandRangeAtEnd.
  rewrite Hnl. replace (netLineChange change >? 0) with true
    by (symmetry; apply Z.gtb_lt; lia).
  simpl.
  rewrite (shouldExpandForNewlineInsertion_spec _ _ _ _ Hline Hcol).
  replace (e - 1 + 1) with e by lia. simpl.
  destruct (hasContent _ || hasContentFrom _ _) eqn:Hgrow; simpl.
  - exists (setEndLine r (Some (e + netLineChange change))).
    rewrite validate_apply_exact; [|lia|].
    + rewrite (shiftLines_end_only r e) by assumption.
      repeat split; try reflexivity; try discriminate.
    + intros e' He'. rewrite He in He'. injection He' as <-. lia.
  - exists r. rewrite validateRangeBounds_valid by assumption.
    repeat split; try reflexivity; try discriminate.
    rewrite He. intros [= H]. lia.
Qed.

(** The range 10..15 and the insertion of a line break with [    y = 2]
    after the text of line 15: in the event's document the following line
    holds the new text, and the range grows to 10..16. *)
Lemma at_end_rule_newline_witness :
  adjustRange currentFile (insertAt 14 9 (Js.LF :: Js.ofString "    y = 2"))
    sampleDocumentAfterInsert (blockRange 10 15)
  = Ok (blockRange 10 16, true).
Proof.
  destruct (at_end_rule_newline currentFile
              (insertAt 14 9 (Js.LF :: Js.ofString "    y = 2"))
              sampleDocumentAfterInsert (blockRange 10 15) 15 codeLine)
    as (r' & Hrun & Hgrow & _).
  - reflexivity.
  - reflexivity.
  - split; simpl; [lia | intros e [= <-]; lia].
  - simpl; lia.
  - reflexivity.
  - simpl; lia.
  - reflexivity.
  - reflexivity.
  - reflexivity.
  - rewrite Hrun, Hgrow; reflexivity.
Defined.

(** C2 as stated fails on a block of one line: its end line is its start
    line, and the rule for the start line is the one the engine applies.  A
    line break typed after the text of line 15, with the two lines after it
    blank, leaves nothing after the column and nothing on the next line,
    yet the range 15..15 becomes 15..16. *)
Lemma at_end_rule_newline_counterexample :
  line (start (range (insertAt 14 9 [Js.LF])))
  = 15 - 1 /\
  endLine (blockRange 15 15) = Some 15 /\
  Js.includesNewline (text (insertAt 14 9 [Js.LF])) = true /\
  netLineChange (insertAt 14 9 [Js.LF]) = 1 /\
  lineAt sampleDocumentBlank15 14 = Ok codeLine /\
  hasContent (nth 15 (lines sampleDocumentBlank15) []) = false /\
  hasContent (nth 16 (lines sampleDocumentBlank15) []) = false /\
  hasContentFrom 9 codeLine = false /\
  adjustRange currentFile (insertAt 14 9 [Js.LF]) sampleDocumentBlank15
    (blockRange 15 15)
  = Ok (blockRange 15 16, true) /\
  blockRange 15 16 <> blockRange 15 15.
Proof. repeat split; try reflexivity. discriminate. Qed.

(** C3 (amended).  For a well-formed range of the edited file and an edit
    whose start line is strictly above the range's start line: if the moved
    [startLine] is still at least 1, both [startLine] and [endLine] (when
    present) move by exactly [netLineChange], so that
    [endLine - startLine] is kept; otherwise [startLine] is clamped to 1
    and [endLine] to at least 1 (stated for a moved [endLine] other than
    0). *)
Theorem edit_above_rigid_shift cur change document r :
  filePath r = cur -> validRange r ->
  line (start (range change)) < startLine r - 1 ->
  (1 <= startLine r + netLineChange change ->
   adjustRange cur change document r
   = Ok (shiftLines r (netLineChange change) (netLineChange change), true) /\
   (forall e e',
      endLine r = Some e ->
      endLine (shiftLines r (netLineChange change) (netLineChange change)) = Some e' ->
      e' - startLine (shiftLines r (netLineChange change) (netLineChange change))
      = e - startLine r)) /\
  (startLine r + netLineChange change < 1 ->
   (forall e, endLine r = Some e -> e + netLineChange change <> 0) ->
   adjustRange cur change document r
   = Ok (withLines r 1
           (option_map (fun e => Z.max 1 (e + netLineChange change)) (endLine r)),
         true)).
Proof.
  intros <- [Hs Hv] HL.
  rewrite adjustRange_same_file, calculate_above by assumption. simpl.
  split.
  - intros Hn. split.
    + rewrite validate_apply_exact; [reflexivity|lia|].
      intros e He. specialize (Hv e He). lia.
    + intros e e' He. unfold shiftLines. simpl. rewrite He. simpl.
      intros [= <-]. lia.
  - intros Hn Hz. rewrite validate_apply_clamped.
    + now rewrite !(Z.max_l 1) by lia.
    + intros e He. specialize (Hv e He). specialize (Hz e He). lia.
Qed.

(** The range 10..15 after two line breaks are put at line 5, column 0, is
    12..17, for the one range and for the whole event. *)
Lemma edit_above_rigid_shift_witness :
  adjustRange currentFile (insertAt 5 0 [Js.LF; Js.LF]) sampleDocument
    (blockRange 10 15)
  = Ok (blockRange 12 17, true) /\
  processChanges currentFile sampleDocument [insertAt 5 0 [Js.LF; Js.LF]]
    ([blockRange 10 15], false)
  = Ok ([blockRange 12 17], true).
Proof.
  split; [|reflexivity].
  destruct (edit_above_rigid_shift currentFile (insertAt 5 0 [Js.LF; Js.LF])
              sampleDocument (blockRange 10 15)) as [Hshift _].
  - reflexivity.
  - split; simpl; [lia | intros e [= <-]; lia].
  - simpl; lia.
  - apply Hshift. simpl; lia.
Defined.

(** C3 as stated fails where the moved start is clamped: deleting lines 1
    to 4 starts above the range 3..5 and has [netLineChange = -4]; the
    claim gives [-1 .. 1], the code [1 .. 1], and the length of the span is
    not kept. *)
Lemma edit_above_rigid_shift_counterexample :
  line (start (range (deleteSpan 0 0 4 0))) < startLine (blockRange 3 5) - 1 /\
  netLineChange (deleteSpan 0 0 4 0) = -4 /\
  adjustRange currentFile (deleteSpan 0 0 4 0) sampleDocument (blockRange 3 5)
  = Ok (blockRange 1 1, true) /\
  blockRange 1 1 <> shiftLines (blockRange 3 5) (-4) (-4) /\
  1 - 1 <> 5 - 3.
Proof. repeat split; try reflexivity; try discriminate. Qed.

(** C4 (amended).  For a well-formed block range of the edited file and an
    edit whose start line lies strictly between the range's start line and
    end line, only [endLine] changes and every other field is kept:
    [endLine] moves by exactly [netLineChange] if that leaves it at least
    [startLine], and is otherwise clamped to [startLine] (stated for a
    moved [endLine] other than 0). *)
Theorem edit_inside_moves_end_only cur change document r e :
  filePath r = cur -> endLine r = Some e -> validRange r ->
  startLine r - 1 < line (start (range change)) < e - 1 ->
  (startLine r <= e + netLineChange change ->
   adjustRange cur change document r
   = Ok (setEndLine r (Some (e + netLineChange change)), true)) /\
  (e + netLineChange change < startLine r -> e + netLineChange change <> 0 ->
   adjustRange cur change document r
   = Ok (setEndLine r (Some (startLine r)), true)).
Proof.
  intros <- He Hvalid HL.
  pose proof Hvalid as [Hs Hv]. specialize (Hv e He).
  rewrite adjustRange_same_file.
  rewrite (rangeEndOf_valid r e Hvalid He), calculate_inside by assumption. simpl.
  split.
  - intros Hn. rewrite validate_apply_exact; [|lia|].
    + now rewrite (shiftLines_end_only r e).
    + intros e' He'. rewrite He in He'. injection He' as <-. lia.
  - intros Hn Hz. rewrite validate_apply_clamped.
    + rewrite He. simpl. rewrite Z.add_0_r, (Z.max_r 1) by lia.
      now rewrite Z.max_l by lia.
    + intros e' He'. rewrite He in He'. injection He' as <-. lia.
Qed.

(** A line break put at line 12 grows the range 10..15 to 10..16. *)
Lemma edit_inside_moves_end_only_witness :
  adjustRange currentFile (insertAt 12 0 [Js.LF]) sampleDocument (blockRange 10 15)
  = Ok (blockRange 10 16, true).
Proof.
  destruct (edit_inside_moves_end_only currentFile (insertAt 12 0 [Js.LF])
              sampleDocument (blockRange 10 15) 15) as [Hgrow _].
  - reflexivity.
  - reflexivity.
  - split; simpl; [lia | intros e [= <-]; lia].
  - simpl; lia.
  - apply Hgrow. simpl; lia.
Defined.

(** C4 as stated fails where the moved end is clamped: a deletion from line
    12 to line 31 starts inside the range 10..15 and has
    [netLineChange = -19]; the claim puts [endLine] at [15 - 19], the code
    at [startLine]. *)
Lemma edit_inside_moves_end_only_counterexample :
  startLine (blockRange 10 15) - 1 < line (start (range (deleteSpan 11 0 30 0)))
    < 15 - 1 /\
  netLineChange (deleteSpan 11 0 30 0) = -19 /\
  adjustRange currentFile (deleteSpan 11 0 30 0) sampleDocument (blockRange 10 15)
  = Ok (blockRange 10 10, true) /\
  blockRange 10 10 <> setEndLine (blockRange 10 15) (Some (15 + -19)).
Proof. repeat split; try reflexivity; try discriminate. Qed.

(** ** Processing a change event *)

(** C5.  An event all of whose edits have a net line change of zero leaves
    every range as it was, wherever the edits are and whatever text they
    put in: the loop returns its state unchanged, the handler returns, and
    the ranges file is not written nor the change signalled. *)
Theorem zero_net_change_is_identity
    (JSON_parse : Js.text -> result (list NvtxRange))
    (JSON_stringify : list NvtxRange -> Js.text)
    (ev : TextDocumentChangeEvent) (w : World) (st : list NvtxRange * bool) :
  Forall (fun change => netLineChange change = 0) (contentChanges ev) ->
  processChanges (fsPath (document ev)) (document ev) (contentChanges ev) st = Ok st /\
  fst (handleTextDocumentChange JSON_parse JSON_stringify ev w) = Ok tt /\
  rangesFile (snd (handleTextDocumentChange JSON_parse JSON_stringify ev w))
  = rangesFile w /\
  rangesChangedSignals (snd (handleTextDocumentChange JSON_parse JSON_stringify ev w))
  = rangesChangedSignals w.
Proof.
  intros Hzero. split; [now apply processChanges_zero_net|].
  unfold handleTextDocumentChange.
  destruct (negb _); [auto|].
  pose proof (readRanges_rangesFile JSON_parse w) as Hfile.
  pose proof (readRanges_signals JSON_parse w) as Hsig.
  destruct (readRanges JSON_parse w) as [ranges w1]. simpl in Hfile, Hsig.
  rewrite processChanges_zero_net by assumption. simpl. auto.
Qed.

(** An edit that replaces a span reaching from line 3 into line 4 by two
    lines of text adds one line break and removes one. *)
Lemma zero_net_change_is_identity_witness :
  processChanges currentFile sampleDocument
    [replaceSpan 3 0 4 2 (Js.ofString "x" ++ [Js.LF] ++ Js.ofString "y")]
    ([blockRange 1 15; eventRange 4], false)
  = Ok ([blockRange 1 15; eventRange 4], false).
Proof.
  apply (zero_net_change_is_identity sampleParse sampleStringify
           (mkEvent sampleDocument
              [replaceSpan 3 0 4 2 (Js.ofString "x" ++ [Js.LF] ++ Js.ofString "y")])
           (sampleWorld None)).
  constructor; [reflexivity | constructor].
Defined.

(** C6 (defect in the code).  The clamp tests [endLine] for truthiness, so an
    [endLine] that an adjustment has brought to 0 is not clamped: the
    well-formed range 5..5 of the edited file, after lines 1 to 5 are
    deleted ([netLineChange = -5]), comes out as [startLine = 1],
    [endLine = 0], which breaks [endLine >= startLine]. *)
Theorem clamp_misses_endLine_zero :
  validRange (blockRange 5 5) /\
  netLineChange (deleteSpan 0 0 5 0) = -5 /\
  applyAdjustment (blockRange 5 5) (mkAdj true (-5) (Some (-5))) = blockRange 0 0 /\
  validateRangeBounds (blockRange 0 0) = blockRange 1 0 /\
  processChanges currentFile sampleDocument [deleteSpan 0 0 5 0]
    ([blockRange 5 5], false)
  = Ok ([blockRange 1 0], true) /\
  ~ validRange (blockRange 1 0).
Proof.
  repeat split; try reflexivity.
  - simpl. lia.
  - simpl. intros e [= <-]. lia.
  - intros [_ H]. specialize (H 0 eq_refl). simpl in H. lia.
Qed.

(** C10.  Processing the edits of an event changes only [startLine] and
    [endLine]: the result has as many ranges as before, in the same order,
    each with its [id], [name], [filePath], [type] and [isEnabled]; a range
    of another file is returned as it was; a range without [endLine] has
    none afterwards.  The ranges file afterwards is what it was, or holds
    such a result of the ranges read. *)
Theorem processing_changes_line_fields_only
    (JSON_parse : Js.text -> result (list NvtxRange))
    (JSON_stringify : list NvtxRange -> Js.text)
    (ev : TextDocumentChangeEvent) (w : World) :
  (forall st st',
     processChanges (fsPath (document ev)) (document ev) (contentChanges ev) st
     = Ok st' ->
     List.length (fst st') = List.length (fst st) /\
     Forall2 (framed (fsPath (document ev))) (fst st) (fst st')) /\
  (rangesFile (snd (handleTextDocumentChange JSON_parse JSON_stringify ev w))
   = rangesFile w \/
   exists ranges',
     Forall2 (framed (fsPath (document ev))) (fst (readRanges JSON_parse w)) ranges' /\
     rangesFile (snd (handleTextDocumentChange JSON_parse JSON_stringify ev w))
     = Some (JSON_stringify ranges')).
Proof.
  split.
  - intros st st' H. apply processChanges_framed in H.
    split; [symmetry; eapply Forall2_length; eauto | assumption].
  - unfold handleTextDocumentChange.
    destruct (negb _); [auto|].
    pose proof (readRanges_rangesFile JSON_parse w) as Hfile.
    destruct (readRanges JSON_parse w) as [ranges w1]. simpl in Hfile. simpl fst.
    destruct (processChanges _ _ _ (ranges, false)) as [[ranges' modified]|m] eqn:Hrun;
      [|auto].
    apply processChanges_framed in Hrun. simpl in Hrun.
    destruct modified; simpl; [|auto].
    destruct (writeRanges_rangesFile JSON_stringify ranges' w1) as [Hw|Hw];
      rewrite Hw; eauto.
Qed.

(** One line break put at line 5: the block 10..15 and the mark at line 12
    of the edited file move, the range of another file does not, and
    nothing else changes. *)
Lemma processing_changes_line_fields_only_witness :
  Forall2 (framed currentFile)
    [blockRange 10 15; eventRange 12;
     mkRange "7" "other" "/w/eval.py" block 3 (Some 2) false]
    [blockRange 11 16; eventRange 13;
     mkRange "7" "other" "/w/eval.py" block 3 (Some 2) false].
Proof.
  apply (proj1 (processing_changes_line_fields_only sampleParse sampleStringify
                  (mkEvent sampleDocument [insertAt 5 0 [Js.LF]]) (sampleWorld None))
           ([blockRange 10 15; eventRange 12;
             mkRange "7" "other" "/w/eval.py" block 3 (Some 2) false], false)
           ([blockRange 11 16; eventRange 13;
             mkRange "7" "other" "/w/eval.py" block 3 (Some 2) false], true)).
  reflexivity.
Defined.

(** ** The store *)

(** C7 (defect in the code).  The id of a created range is the decimal
    rendering of the clock reading and of nothing else: two creations at
    one reading of [Date.now()] get the same id, whatever their other
    arguments. *)
Theorem createRange_same_clock_same_id
    (now : Z) (name1 filePath1 : string) (startLine1 : Z) (endLine1 : option Z)
    (type1 : option RangeType) (isEnabled1 : option bool)
    (name2 filePath2 : string) (startLine2 : Z) (endLine2 : option Z)
    (type2 : option RangeType) (isEnabled2 : option bool) :
  id (createRange now name1 filePath1 startLine1 endLine1 type1 isEnabled1)
  = id (createRange now name2 filePath2 startLine2 endLine2 type2 isEnabled2) /\
  id (createRange 1700000000000 "forward" "/w/train.py" 10 (Some 15) None None)
  = "1700000000000"%string /\
  id (createRange 1700000000000 "backward" "/w/train.py" 20 (Some 25) None None)
  = "1700000000000"%string.
Proof. repeat split. Qed.

(** C8.  [readRanges] returns the empty collection when the ranges file is
    absent, and when its content is empty after trimming, without
    reporting anything in an open workspace; when the trimmed content is
    not empty and [JSON.parse] throws on it, the error is reported and the
    empty collection returned.  It never throws. *)
Theorem readRanges_degrades_to_empty
    (JSON_parse : Js.text -> result (list NvtxRange)) (w : World) :
  (rangesFile w = None ->
   fst (readRanges JSON_parse w) = [] /\
   (workspaceOpen w = true -> snd (readRanges JSON_parse w) = w)) /\
  (forall fileContent,
     rangesFile w = Some fileContent -> Js.trim fileContent = [] ->
     fst (readRanges JSON_parse w) = [] /\
     (workspaceOpen w = true -> snd (readRanges JSON_parse w) = w)) /\
  (forall fileContent msg,
     workspaceOpen w = true ->
     rangesFile w = Some fileContent -> Js.trim fileContent <> [] ->
     JSON_parse (Js.trim fileContent) = Throw msg ->
     readRanges JSON_parse w
     = ([], report ("Error reading NVTX ranges: " ++ msg) w)).
Proof.
  unfold readRanges, getRangesFilePath. repeat split.
  - rewrite H. destruct (workspaceOpen w); reflexivity.
  - intros Hopen. rewrite H, Hopen. reflexivity.
  - rewrite H, H0. destruct (workspaceOpen w); reflexivity.
  - intros Hopen. rewrite H, H0, Hopen. reflexivity.
  - intros fileContent msg Hopen Hfile Hne Hparse.
    rewrite Hopen, Hfile. simpl.
    destruct (Js.trim fileContent) eqn:Ht; [congruence|].
    simpl. rewrite Hparse. reflexivity.
Qed.

(** No file; a file of blanks and a line break; a file that is not JSON. *)
Lemma readRanges_degrades_to_empty_witness :
  fst (readRanges sampleParse (sampleWorld None)) = [] /\
  fst (readRanges sampleParse (sampleWorld (Some [32; 32; 10]%N))) = [] /\
  readRanges sampleParse (sampleWorld (Some (Js.ofString "{oops")))
  = ([], report "Error reading NVTX ranges: SyntaxError: Unexpected token"
           (sampleWorld (Some (Js.ofString "{oops")))).
Proof.
  split; [|split].
  - apply (proj1 (readRanges_degrades_to_empty sampleParse (sampleWorld None))).
    reflexivity.
  - apply (proj1 (proj2 (readRanges_degrades_to_empty sampleParse
                           (sampleWorld (Some [32; 32; 10]%N))))
             [32; 32; 10]%N); reflexivity.
  - apply (proj2 (proj2 (readRanges_degrades_to_empty sampleParse
                           (sampleWorld (Some (Js.ofString "{oops")))))
             (Js.ofString "{oops")); try reflexivity.
    discriminate.
Defined.

(** C9.  [deleteRange], [updateRange] and [toggleRangeEnabled] each return
    [true] exactly when the set that [readRanges] returns has a range with
    the given id; when they return [false] nothing is written: the world is
    the one the read left, whose ranges file is the one before the call. *)
Theorem mutations_report_whether_id_exists
    (JSON_parse : Js.text -> result (list NvtxRange))
    (JSON_stringify : list NvtxRange -> Js.text)
    (rangeId : string) (updates : PartialRange) (w : World) :
  (fst (deleteRange JSON_parse JSON_stringify rangeId w) = true <->
   exists r, In r (fst (readRanges JSON_parse w)) /\ id r = rangeId) /\
  (fst (updateRange JSON_parse JSON_stringify rangeId updates w) = true <->
   exists r, In r (fst (readRanges JSON_parse w)) /\ id r = rangeId) /\
  (fst (toggleRangeEnabled JSON_parse JSON_stringify rangeId w) = true <->
   exists r, In r (fst (readRanges JSON_parse w)) /\ id r = rangeId) /\
  (fst (deleteRange JSON_parse JSON_stringify rangeId w) = false ->
   snd (deleteRange JSON_parse JSON_stringify rangeId w)
   = snd (readRanges JSON_parse w)) /\
  (fst (updateRange JSON_parse JSON_stringify rangeId updates w) = false ->
   snd (updateRange JSON_parse JSON_stringify rangeId updates w)
   = snd (readRanges JSON_parse w)) /\
  (fst (toggleRangeEnabled JSON_parse JSON_stringify rangeId w) = false ->
   snd (toggleRangeEnabled JSON_parse JSON_stringify rangeId w)
   = snd (readRanges JSON_parse w)) /\
  rangesFile (snd (readRanges JSON_parse w)) = rangesFile w.
Proof.
  unfold deleteRange, updateRange, toggleRangeEnabled.
  pose proof (readRanges_rangesFile JSON_parse w) as Hfile.
  destruct (readRanges JSON_parse w) as [ranges w1]. simpl fst. simpl snd.
  pose proof (filter_drops_iff rangeId ranges) as Hdel.
  pose proof (mutateFirst_found rangeId
                (fun targetRange => assign targetRange updates) ranges) as Hupd.
  pose proof (mutateFirst_found rangeId
                (fun targetRange =>
                   setIsEnabled targetRange (negb (isEnabled targetRange)))
                ranges) as Htog.
  repeat split; try assumption.
  - intros H. apply Hdel. revert H.
    destruct (negb _); [reflexivity|discriminate].
  - intros H. apply Hdel in H. now rewrite H.
  - intros H. apply Hupd. revert H.
    split_match; [eauto|discriminate].
  - intros H. apply Hupd in H. destruct H as [ranges' ->]. reflexivity.
  - intros H. apply Htog. revert H.
    split_match; [eauto|discriminate].
  - intros H. apply Htog in H. destruct H as [ranges' ->]. reflexivity.
  - destruct (negb _); [discriminate|reflexivity].
  - split_match; [discriminate|reflexivity].
  - split_match; [discriminate|reflexivity].
Qed.

(** A stored set of one range: its id is found, another id is not, and the
    file is left alone when it is not. *)
Lemma mutations_report_whether_id_exists_witness :
  fst (deleteRange sampleParse sampleStringify "1700000000000"
         (sampleWorld (Some [82]%N))) = true /\
  (fst (toggleRangeEnabled sampleParse sampleStringify "42"
          (sampleWorld (Some [82]%N))) = true -> False) /\
  rangesFile (snd (updateRange sampleParse sampleStringify "42"
                     (mkPartial None (Some "renamed"%string) None None None None None)
                     (sampleWorld (Some [82]%N))))
  = Some [82]%N.
Proof.
  pose proof (mutations_report_whether_id_exists sampleParse sampleStringify
                "1700000000000"
                (mkPartial None (Some "renamed"%string) None None None None None)
                (sampleWorld (Some [82]%N))) as (Hdel & _).
  pose proof (mutations_report_whether_id_exists sampleParse sampleStringify
                "42"
                (mkPartial None (Some "renamed"%string) None None None None None)
                (sampleWorld (Some [82]%N)))
    as (_ & _ & Htog & _ & Hupd & _ & Hfile).
  split; [|split].
  - apply Hdel. exists (blockRange 10 15). split; [left|]; reflexivity.
  - intros H. apply Htog in H. destruct H as [r [[<-|[]] Hid]]. discriminate.
  - rewrite Hupd; [exact Hfile | reflexivity].
Defined.

(** ** More of the engine: the remaining boundary cases *)

Lemma calculate_shape L net rs re change document adjustment :
  calculateRangeAdjustment L net rs re change document = Ok adjustment ->
  adjustment = mkAdj true net (Some net) \/
  adjustment = mkAdj true 0 (Some net) \/
  adjustment = mkAdj false 0 None.
Proof.
  unfold calculateRangeAdjustment, handleChangeAtRangeStart, handleChangeAtRangeEnd.
  destruct (L <? rs); [intros [= <-]; auto|].
  destruct (L =? rs).
  { destruct (isInsertionBeforeContent _ _ _) as [[|]|m]; simpl; intros [= <-]; auto. }
  destruct ((L >? rs) && (L <? re)); [intros [= <-]; auto|].
  destruct (L =? re); [|intros [= <-]; auto].
  destruct (shouldExpandRangeAtEnd _ _ _ _ _) as [[|]|m]; simpl; intros [= <-]; auto.
Qed.

Lemma validRange_shiftLines r dStart dEnd :
  validRange r -> 1 <= startLine r + dStart -> dStart <= dEnd ->
  validRange (shiftLines r dStart dEnd).
Proof.
  intros [Hs Hv] H1 H2. split; simpl; [assumption|].
  intros e'. destruct (endLine r) as [e|]; simpl; [|discriminate].
  intros [= <-]. specialize (Hv e eq_refl). lia.
Qed.

Lemma adjustRange_valid_nonneg cur change document r r' modified :
  validRange r -> 0 <= netLineChange change ->
  adjustRange cur change document r = Ok (r', modified) ->
  validRange r'.
Proof.
  intros Hvalid Hnet.
  destruct (String.eqb_spec (filePath r) cur) as [<-|Hne].
  - rewrite adjustRange_same_file.
    destruct (calculateRangeAdjustment _ _ _ _ _ _) as [adjustment|m] eqn:Hcalc;
      simpl; [|discriminate].
    pose proof Hvalid as [Hs Hv].
    destruct (calculate_shape _ _ _ _ _ _ _ Hcalc) as [-> | [-> | ->]]; simpl;
      intros [= <- <-].
    + rewrite validate_apply_exact.
      * apply validRange_shiftLines; [assumption|lia|lia].
      * lia.
      * intros e He. specialize (Hv e He). lia.
    + rewrite validate_apply_exact.
      * apply validRange_shiftLines; [assumption|lia|lia].
      * lia.
      * intros e He. specialize (Hv e He). lia.
    + now rewrite validateRangeBounds_valid.
  - rewrite adjustRange_other_file by assumption. now intros [= <- <-].
Qed.

Lemma adjustRange_unflagged_valid cur change document r r' :
  validRange r ->
  adjustRange cur change document r = Ok (r', false) -> r' = r.
Proof.
  intros Hvalid.
  destruct (String.eqb_spec (filePath r) cur) as [<-|Hne].
  - rewrite adjustRange_same_file.
    destruct (calculateRangeAdjustment _ _ _ _ _ _) as [adjustment|m]; simpl;
      [|discriminate].
    destruct (shouldModify adjustment); [discriminate|].
    intros [= <-]. now apply validateRangeBounds_valid.
  - rewrite adjustRange_other_file by assumption. now intros [= <-].
Qed.

Lemma processChange_unflagged cur document rs m change rs' :
  Forall validRange rs ->
  processChange cur document (rs, m) change = Ok (rs', false) ->
  rs' = rs /\ m = false.
Proof.
  intros Hvalid. unfold processChange. simpl.
  destruct (netLineChange change =? 0); [intros [= <- <-]; auto|].
  destruct (mapR _ rs) as [l|msg] eqn:Hmap; simpl; [|discriminate].
  intros [= <- Hflag]. apply orb_false_iff in Hflag. destruct Hflag as [-> Hflag].
  split; [|reflexivity].
  apply mapR_Forall2 in Hmap.
  induction Hmap as [|r [r' b] rs l Hr _ IH]; simpl in *; [reflexivity|].
  apply orb_false_iff in Hflag. destruct Hflag as [-> Hflag].
  inversion Hvalid as [|? ? Hr0 Hrest]; subst.
  f_equal; [|auto].
  eapply adjustRange_unflagged_valid; eauto.
Qed.

Lemma processChange_flag_stays cur document rs change st' :
  processChange cur document (rs, true) change = Ok st' -> snd st' = true.
Proof.
  unfold processChange. simpl.
  destruct (netLineChange change =? 0); [now intros [= <-]|].
  destruct (mapR _ rs) as [l|msg]; simpl; [|discriminate].
  now intros [= <-].
Qed.

Lemma processChanges_flag_stays cur document changes : forall rs st',
  processChanges cur document changes (rs, true) = Ok st' -> snd st' = true.
Proof.
  induction changes as [|change rest IH]; simpl; intros rs st' H.
  - now injection H as <-.
  - destruct (processChange cur document (rs, true) change) as [[rs1 m1]|msg] eqn:H1;
      [|discriminate].
    apply processChange_flag_stays in H1. simpl in H1. subst m1. eauto.
Qed.

(** X1.  An edit that starts below the last line of a well-formed range of
    the edited file leaves the range as it is and does not flag a
    modification. *)
Theorem edit_below_unchanged cur change document r :
  filePath r = cur -> validRange r ->
  startLine r - 1 < line (start (range change)) ->
  (forall e, endLine r = Some e -> e - 1 < line (start (range change))) ->
  adjustRange cur change document r = Ok (r, false).
Proof.
  intros <- Hvalid Hs He.
  rewrite adjustRange_same_file.
  rewrite calculate_below; simpl.
  - now rewrite validateRangeBounds_valid.
  - assumption.
  - destruct (endLine r) as [e|] eqn:Hend.
    + rewrite (rangeEndOf_valid r e Hvalid Hend). auto.
    + unfold rangeEndOf. now rewrite Hend.
Qed.

(** Three lines put in at line 21 leave the range 10..15 alone. *)
Lemma edit_below_unchanged_witness :
  adjustRange currentFile (insertAt 20 0 [Js.LF; Js.LF; Js.LF]) sampleDocument
    (blockRange 10 15)
  = Ok (blockRange 10 15, false).
Proof.
  apply (edit_below_unchanged currentFile (insertAt 20 0 [Js.LF; Js.LF; Js.LF])
           sampleDocument (blockRange 10 15)).
  - reflexivity.
  - split; simpl; [lia | intros e [= <-]; lia].
  - simpl; lia.
  - simpl. intros e [= <-]. lia.
Defined.

(** X2.  For a well-formed block range of more than one line and a
    line-count changing edit that starts on its end line and does not bring
    a net gain of lines through a line break in its text (so a deletion or
    a replacement): when the end line has non-blank content at or after
    the edit's column, [endLine] moves by [netLineChange], clamped to
    [startLine] from below; when it has none, the range is left as it is. *)
Theorem at_end_rule_without_newline cur change document r e currentLineText :
  filePath r = cur -> endLine r = Some e -> validRange r ->
  startLine r < e ->
  line (start (range change)) = e - 1 ->
  0 <= character (start (range change)) ->
  Js.includesNewline (text change) && (netLineChange change >? 0) = false ->
  lineAt document (e - 1) = Ok currentLineText ->
  (hasContentFrom (character (start (range change))) currentLineText = false ->
   adjustRange cur change document r = Ok (r, false)) /\
  (hasContentFrom (character (start (range change))) currentLineText = true ->
   (startLine r <= e + netLineChange change ->
    adjustRange cur change document r
    = Ok (setEndLine r (Some (e + netLineChange change)), true)) /\
   (e + netLineChange change < startLine r -> e + netLineChange change <> 0 ->
    adjustRange cur change document r
    = Ok (setEndLine r (Some (startLine r)), true))).
Proof.
  intros <- He Hvalid Hlt HL Hcol Hbranch Hline.
  pose proof Hvalid as [Hs Hv]. specialize (Hv e He).
  rewrite adjustRange_same_file, HL.
  rewrite (rangeEndOf_valid r e Hvalid He), calculate_at_end by lia.
  unfold handleChangeAtRangeEnd, shouldExpandRangeAtEnd.
  rewrite Hbranch. unfold isInsertionAfterContent. rewrite Hline. simpl.
  rewrite trimEnd_hasContentFrom by assumption.
  split.
  - intros ->. simpl. now rewrite validateRangeBounds_valid.
  - intros ->. simpl. split.
    + intros Hn. rewrite validate_apply_exact; [|lia|].
      * now rewrite (shiftLines_end_only r e).
      * intros e' He'. rewrite He in He'. injection He' as <-. lia.
    + intros Hn Hz. rewrite validate_apply_clamped.
      * rewrite He. simpl. rewrite Z.add_0_r, (Z.max_r 1) by lia.
        now rewrite Z.max_l by lia.
      * intros e' He'. rewrite He in He'. injection He' as <-. lia.
Qed.

(** Deleting from column 2 of line 15 to the start of line 17 removes two
    lines; text remains after column 2, and the range 10..15 becomes
    10..13.  The same deletion from the end of the text of line 15 leaves
    the range alone. *)
Lemma at_end_rule_without_newline_witness :
  adjustRange currentFile (deleteSpan 14 2 16 0) sampleDocument (blockRange 10 15)
  = Ok (blockRange 10 13, true) /\
  adjustRange currentFile (deleteSpan 14 9 16 0) sampleDocument (blockRange 10 15)
  = Ok (blockRange 10 15, false).
Proof.
  split.
  - destruct (at_end_rule_without_newline currentFile (deleteSpan 14 2 16 0)
                sampleDocument (blockRange 10 15) 15 codeLine) as [_ Hcontent].
    + reflexivity.
    + reflexivity.
    + split; simpl; [lia | intros e [= <-]; lia].
    + simpl; lia.
    + reflexivity.
    + simpl; lia.
    + reflexivity.
    + reflexivity.
    + apply (proj1 (Hcontent eq_refl)). simpl; lia.
  - destruct (at_end_rule_without_newline currentFile (deleteSpan 14 9 16 0)
                sampleDocument (blockRange 10 15) 15 codeLine) as [Hnone _].
    + reflexivity.
    + reflexivity.
    + split; simpl; [lia | intros e [= <-]; lia].
    + simpl; lia.
    + reflexivity.
    + simpl; lia.
    + reflexivity.
    + reflexivity.
    + apply Hnone. reflexivity.
Defined.

(** X3.  For a mark (a range without [endLine]) of the edited file and an
    edit that starts on the mark's line: when the insertion column is at or
    before the first non-whitespace column of the line, or the line is
    blank, the mark moves by [netLineChange] (if that keeps it at line 1 or
    below); otherwise the mark is returned as it was, yet a modification is
    flagged. *)
Theorem event_range_at_its_line cur change document r lineText :
  filePath r = cur -> endLine r = None -> 1 <= startLine r ->
  line (start (range change)) = startLine r - 1 ->
  lineAt document (startLine r - 1) = Ok lineText ->
  (atOrBeforeContent (character (start (range change))) lineText = true ->
   1 <= startLine r + netLineChange change ->
   adjustRange cur change document r
   = Ok (setStartLine r (startLine r + netLineChange change), true)) /\
  (atOrBeforeContent (character (start (range change))) lineText = false ->
   adjustRange cur change document r = Ok (r, true)).
Proof.
  intros <- He Hs HL Hline.
  rewrite adjustRange_same_file, HL.
  rewrite (calculate_at_start _ _ _ _ _ _ Hline).
  split; intros Hb; rewrite Hb; simpl.
  - intros Hn. rewrite validate_apply_exact; [|lia|].
    + unfold shiftLines, withLines, setStartLine. now rewrite He.
    + intros e He'. congruence.
  - rewrite validate_apply_exact; [|lia|].
    + unfold shiftLines, withLines. rewrite He, Z.add_0_r. simpl.
      destruct r; simpl in *. now subst.
    + intros e He'. congruence.
Qed.

(** A line break put at column 0 of line 12 moves the mark at line 12 to
    line 13; put after the text of line 12 it leaves the mark and flags a
    modification. *)
Lemma event_range_at_its_line_witness :
  adjustRange currentFile (insertAt 11 0 [Js.LF]) sampleDocument (eventRange 12)
  = Ok (eventRange 13, true) /\
  adjustRange currentFile (insertAt 11 9 [Js.LF]) sampleDocument (eventRange 12)
  = Ok (eventRange 12, true).
Proof.
  split.
  - destruct (event_range_at_its_line currentFile (insertAt 11 0 [Js.LF])
                sampleDocument (eventRange 12) codeLine) as [Hmove _].
    + reflexivity.
    + reflexivity.
    + simpl; lia.
    + reflexivity.
    + reflexivity.
    + apply Hmove; [reflexivity | simpl; lia].
  - destruct (event_range_at_its_line currentFile (insertAt 11 9 [Js.LF])
                sampleDocument (eventRange 12) codeLine) as [_ Hstay].
    + reflexivity.
    + reflexivity.
    + simpl; lia.
    + reflexivity.
    + reflexivity.
    + apply Hstay. reflexivity.
Defined.

(** X4.  An event none of whose edits removes more lines than it adds keeps
    the invariant of the data model: if every range has [startLine >= 1]
    and [endLine >= startLine] before, every range has afterwards. *)
Theorem insert_only_keeps_ranges_valid cur document changes :
  forall rs modified rs' modified',
    Forall validRange rs ->
    Forall (fun change => 0 <= netLineChange change) changes ->
    processChanges cur document changes (rs, modified) = Ok (rs', modified') ->
    Forall validRange rs'.
Proof.
  induction changes as [|change rest IH]; simpl;
    intros rs modified rs' modified' Hvalid Hnet H.
  - now injection H as <- <-.
  - inversion Hnet as [|? ? Hc Hrest]; subst.
    destruct (processChange cur document (rs, modified) change)
      as [[rs1 m1]|msg] eqn:H1; [|discriminate].
    apply (IH rs1 m1 rs' modified'); [|assumption|assumption].
    revert H1. unfold processChange. simpl.
    destruct (netLineChange change =? 0); [now intros [= <- <-]|].
    destruct (mapR _ rs) as [l|msg] eqn:Hmap; simpl; [|discriminate].
    intros [= <- _]. apply mapR_Forall2 in Hmap. clear -Hmap Hvalid Hc.
    induction Hmap as [|r [r' b] rs l Hr _ IHl]; simpl; constructor;
      inversion Hvalid; subst; auto.
    eapply adjustRange_valid_nonneg; eauto.
Qed.

(** Two insertions, one above the block and one inside it. *)
Lemma insert_only_keeps_ranges_valid_witness :
  Forall validRange [blockRange 12 18; eventRange 3].
Proof.
  apply (insert_only_keeps_ranges_valid currentFile sampleDocument
           [insertAt 5 0 [Js.LF; Js.LF]; insertAt 13 0 [Js.LF]]
           [blockRange 10 15; eventRange 3] false
           [blockRange 12 18; eventRange 3] true).
  - repeat constructor; simpl; try lia; intros e [= <-]; lia.
  - constructor; [apply Z.leb_le; reflexivity|].
    constructor; [apply Z.leb_le; reflexivity|constructor].
  - reflexivity.
Defined.

(** X5.  After an edit that changes the line count, every range of the
    edited file has been through the clamp, whatever it was before:
    [startLine >= 1], and [endLine >= startLine] unless [endLine] is 0. *)
Theorem line_changing_edit_clamps_ranges cur document rs modified change rs' modified' :
  netLineChange change <> 0 ->
  processChange cur document (rs, modified) change = Ok (rs', modified') ->
  Forall (fun r' =>
            filePath r' = cur ->
            1 <= startLine r' /\
            forall e, endLine r' = Some e -> e <> 0 -> startLine r' <= e)
    rs'.
Proof.
  intros Hnet. unfold processChange. simpl.
  apply Z.eqb_neq in Hnet. rewrite Hnet.
  destruct (mapR _ rs) as [l|msg] eqn:Hmap; simpl; [|discriminate].
  intros [= <- _]. apply mapR_Forall2 in Hmap.
  induction Hmap as [|r [r' b] rs0 l Hr _ IH]; simpl; constructor; auto.
  intros Hfile.
  pose proof (adjustRange_framed _ _ _ _ _ _ Hr) as (_ & _ & Hpath & _).
  rewrite <- Hfile, Hpath in Hr.
  split.
  - eapply adjustRange_startLine; eauto.
  - intros e. eapply adjustRange_endLine; eauto.
Qed.

(** A stored range 0..-3 is brought to 1..1 by an edit below it. *)
Lemma line_changing_edit_clamps_ranges_witness :
  Forall (fun r' =>
            filePath r' = currentFile ->
            1 <= startLine r' /\
            forall e, endLine r' = Some e -> e <> 0 -> startLine r' <= e)
    [blockRange 1 1].
Proof.
  apply (line_changing_edit_clamps_ranges currentFile sampleDocument
           [blockRange 0 (-3)] false (insertAt 20 0 [Js.LF]) [blockRange 1 1] false).
  - vm_compute. discriminate.
  - reflexivity.
Defined.

(** X6.  When the processing of an event ends without a modification
    flagged, so that nothing will be written, the well-formed ranges it
    holds are the ranges it started from. *)
Theorem unflagged_processing_changes_nothing cur document changes :
  forall rs rs',
    Forall validRange rs ->
    processChanges cur document changes (rs, false) = Ok (rs', false) ->
    rs' = rs.
Proof.
  induction changes as [|change rest IH]; simpl; intros rs rs' Hvalid H.
  - now injection H as <-.
  - destruct (processChange cur document (rs, false) change)
      as [[rs1 m1]|msg] eqn:H1; [|discriminate].
    destruct m1.
    + apply processChanges_flag_stays in H. discriminate.
    + apply processChange_unflagged in H1; [|assumption].
      destruct H1 as [-> _]. auto.
Qed.

(** An edit below the block and an edit in another part of the file that
    keeps the line count. *)
Lemma unflagged_processing_changes_nothing_witness :
  processChanges currentFile sampleDocument
    [insertAt 30 0 [Js.LF]; replaceSpan 3 0 3 4 (Js.ofString "y")]
    ([blockRange 10 15], false)
  = Ok ([blockRange 10 15], false) /\
  [blockRange 10 15] = [blockRange 10 15].
Proof.
  split; [reflexivity|].
  apply (unflagged_processing_changes_nothing currentFile sampleDocument
           [insertAt 30 0 [Js.LF]; replaceSpan 3 0 3 4 (Js.ofString "y")]
           [blockRange 10 15] [blockRange 10 15]).
  - repeat constructor; simpl; try lia; intros e [= <-]; lia.
  - reflexivity.
Defined.

(** ** More of the store: what the mutations write *)

Lemma toString_nonempty n : Js.toString n <> ""%string.
Proof.
  unfold Js.toString. destruct n as [|p|p]; simpl.
  - discriminate.
  - pose proof (DecimalPos.Unsigned.to_uint_nonnil p) as H.
    destruct (Pos.to_uint p); simpl; congruence.
  - discriminate.
Qed.

Lemma mutateFirst_decompose rangeId f : forall ranges ranges',
  mutateFirst rangeId f ranges = Some ranges' ->
  exists pre r post,
    ranges = pre ++ r :: post /\
    Forall (fun x => id x <> rangeId) pre /\
    id r = rangeId /\
    ranges' = pre ++ f r :: post.
Proof.
  induction ranges as [|x rest IH]; simpl; intros ranges' H.
  - discriminate.
  - destruct (String.eqb_spec (id x) rangeId) as [Heq|Hne].
    + injection H as <-. exists [], x, rest. repeat split; auto.
    + destruct (mutateFirst rangeId f rest) as [rest'|] eqn:Hrest; [|discriminate].
      injection H as <-.
      destruct (IH rest' eq_refl) as (pre & r & post & -> & Hpre & Hid & ->).
      exists (x :: pre), r, post. repeat split; auto.
Qed.

Lemma mutateFirst_toggled_back rangeId : forall ranges ranges',
  mutateFirst rangeId toggled ranges = Some ranges' ->
  mutateFirst rangeId toggled ranges' = Some ranges.
Proof.
  induction ranges as [|x rest IH]; simpl; intros ranges' H.
  - discriminate.
  - destruct (String.eqb (id x) rangeId) eqn:Hx.
    + injection H as <-. simpl. rewrite Hx.
      unfold toggled, setIsEnabled. simpl. rewrite negb_involutive.
      now destruct x.
    + destruct (mutateFirst rangeId toggled rest) as [rest'|] eqn:Hrest;
        [|discriminate].
      injection H as <-. simpl. rewrite Hx.
      now rewrite (IH rest' eq_refl).
Qed.

Section StoreWrites.

Variable JSON_parse : Js.text -> result (list NvtxRange).
Variable JSON_stringify : list NvtxRange -> Js.text.

Lemma readRanges_parsed w fileContent ranges :
  workspaceOpen w = true -> rangesFile w = Some fileContent ->
  Js.trim fileContent <> [] ->
  JSON_parse (Js.trim fileContent) = Ok ranges ->
  readRanges JSON_parse w = (ranges, w).
Proof.
  intros Hopen Hfile Hne Hparse.
  unfold readRanges, getRangesFilePath. rewrite Hopen, Hfile. simpl.
  destruct (Js.trim fileContent) eqn:Ht; [congruence|].
  simpl. now rewrite Hparse.
Qed.

Lemma readRanges_unparsable w fileContent msg :
  workspaceOpen w = true -> rangesFile w = Some fileContent ->
  Js.trim fileContent <> [] ->
  JSON_parse (Js.trim fileContent) = Throw msg ->
  readRanges JSON_parse w
  = ([], report ("Error reading NVTX ranges: " ++ msg) w).
Proof.
  intros Hopen Hfile Hne Hparse.
  unfold readRanges, getRangesFilePath. rewrite Hopen, Hfile. simpl.
  destruct (Js.trim fileContent) eqn:Ht; [congruence|].
  simpl. now rewrite Hparse.
Qed.

Lemma readRanges_keeps_switches w :
  workspaceOpen (snd (readRanges JSON_parse w)) = workspaceOpen w /\
  diskWritable (snd (readRanges JSON_parse w)) = diskWritable w.
Proof.
  destruct (readRanges_world JSON_parse w) as [->|[msg ->]]; auto.
Qed.

Lemma writeRanges_stores ranges w :
  workspaceOpen w = true -> diskWritable w = true ->
  writeRanges JSON_stringify ranges w = storeFile (JSON_stringify ranges) w.
Proof.
  intros Hopen Hdisk. unfold writeRanges, getRangesFilePath.
  now rewrite Hopen, Hdisk.
Qed.

Lemma writeRanges_after_read ranges w :
  workspaceOpen w = true -> diskWritable w = true ->
  writeRanges JSON_stringify ranges (snd (readRanges JSON_parse w))
  = storeFile (JSON_stringify ranges) (snd (readRanges JSON_parse w)).
Proof.
  intros Hopen Hdisk. destruct (readRanges_keeps_switches w) as [H1 H2].
  apply writeRanges_stores; congruence.
Qed.

Lemma readRanges_after_store ranges w0 :
  workspaceOpen w0 = true ->
  Js.trim (JSON_stringify ranges) <> [] ->
  JSON_parse (Js.trim (JSON_stringify ranges)) = Ok ranges ->
  readRanges JSON_parse (storeFile (JSON_stringify ranges) w0)
  = (ranges, storeFile (JSON_stringify ranges) w0).
Proof.
  intros Hopen Hne Hparse.
  now apply (readRanges_parsed _ (JSON_stringify ranges)).
Qed.

End StoreWrites.

(** X7.  In an open workspace on a writable disk, [addRange] appends: if
    the codec reads back what it writes for the new set, a read after
    [addRange] returns the ranges read before, in their order, followed by
    the new range. *)
Theorem addRange_then_readRanges
    (JSON_parse : Js.text -> result (list NvtxRange))
    (JSON_stringify : list NvtxRange -> Js.text)
    (r : NvtxRange) (w : World) :
  workspaceOpen w = true -> diskWritable w = true ->
  Js.trim (JSON_stringify (fst (readRanges JSON_parse w) ++ [r])) <> [] ->
  JSON_parse (Js.trim (JSON_stringify (fst (readRanges JSON_parse w) ++ [r])))
  = Ok (fst (readRanges JSON_parse w) ++ [r]) ->
  fst (readRanges JSON_parse (addRange JSON_parse JSON_stringify r w))
  = fst (readRanges JSON_parse w) ++ [r].
Proof.
  intros Hopen Hdisk Hne Hparse. unfold addRange.
  pose proof (writeRanges_after_read JSON_parse JSON_stringify
                (fst (readRanges JSON_parse w) ++ [r]) w Hopen Hdisk) as Hw.
  destruct (readRanges_keeps_switches JSON_parse w) as [Hopen1 _].
  destruct (readRanges JSON_parse w) as [ranges w1]. simpl in *.
  rewrite Hw, readRanges_after_store; auto. congruence.
Qed.

(** With no file yet, adding the range 10..15 makes it the stored set. *)
Lemma addRange_then_readRanges_witness :
  fst (readRanges toggleParse
         (addRange toggleParse toggleStringify (blockRange 10 15) (sampleWorld None)))
  = [blockRange 10 15].
Proof.
  apply (addRange_then_readRanges toggleParse toggleStringify (blockRange 10 15)
           (sampleWorld None)).
  - reflexivity.
  - reflexivity.
  - discriminate.
  - reflexivity.
Defined.

(** X8.  When the ranges file holds text that is not JSON, [addRange] reads
    it as no ranges and writes the new range alone: the error is reported
    and the file's previous content is replaced. *)
Theorem addRange_overwrites_unreadable_file
    (JSON_parse : Js.text -> result (list NvtxRange))
    (JSON_stringify : list NvtxRange -> Js.text)
    (r : NvtxRange) (w : World) (fileContent : Js.text) (msg : string) :
  workspaceOpen w = true -> diskWritable w = true ->
  rangesFile w = Some fileContent -> Js.trim fileContent <> [] ->
  JSON_parse (Js.trim fileContent) = Throw msg ->
  addRange JSON_parse JSON_stringify r w
  = storeFile (JSON_stringify [r])
      (report ("Error reading NVTX ranges: " ++ msg) w).
Proof.
  intros Hopen Hdisk Hfile Hne Hparse. unfold addRange.
  rewrite (readRanges_unparsable JSON_parse w fileContent msg Hopen Hfile Hne Hparse).
  simpl. now apply writeRanges_stores.
Qed.

(** A file that holds [{oops] is replaced by the new range. *)
Lemma addRange_overwrites_unreadable_file_witness :
  rangesFile (addRange toggleParse toggleStringify (blockRange 10 15)
                (sampleWorld (Some (Js.ofString "{oops"))))
  = Some [83]%N.
Proof.
  rewrite (addRange_overwrites_unreadable_file toggleParse toggleStringify
             (blockRange 10 15) (sampleWorld (Some (Js.ofString "{oops")))
             (Js.ofString "{oops") "SyntaxError: Unexpected token").
  - reflexivity.
  - reflexivity.
  - reflexivity.
  - reflexivity.
  - discriminate.
  - reflexivity.
Defined.

(** X9.  In an open workspace on a writable disk, a [deleteRange] that
    finds the id writes the stored ranges without every range of that id,
    the others in their order; and if the codec reads that set back, a
    second [deleteRange] of the same id finds nothing and leaves the file
    as the first wrote it. *)
Theorem deleteRange_removes_every_match
    (JSON_parse : Js.text -> result (list NvtxRange))
    (JSON_stringify : list NvtxRange -> Js.text)
    (rangeId : string) (w : World) :
  workspaceOpen w = true -> diskWritable w = true ->
  fst (deleteRange JSON_parse JSON_stringify rangeId w) = true ->
  rangesFile (snd (deleteRange JSON_parse JSON_stringify rangeId w))
  = Some (JSON_stringify
            (filter (fun r => negb (String.eqb (id r) rangeId))
               (fst (readRanges JSON_parse w)))) /\
  (forall r,
     In r (filter (fun r => negb (String.eqb (id r) rangeId))
             (fst (readRanges JSON_parse w)))
     <-> In r (fst (readRanges JSON_parse w)) /\ id r <> rangeId) /\
  (Js.trim (JSON_stringify
              (filter (fun r => negb (String.eqb (id r) rangeId))
                 (fst (readRanges JSON_parse w)))) <> [] ->
   JSON_parse
     (Js.trim (JSON_stringify
                 (filter (fun r => negb (String.eqb (id r) rangeId))
                    (fst (readRanges JSON_parse w)))))
   = Ok (filter (fun r => negb (String.eqb (id r) rangeId))
           (fst (readRanges JSON_parse w))) ->
   deleteRange JSON_parse JSON_stringify rangeId
     (snd (deleteRange JSON_parse JSON_stringify rangeId w))
   = (false, snd (deleteRange JSON_parse JSON_stringify rangeId w))).
Proof.
  intros Hopen Hdisk.
  pose proof (fun rs => writeRanges_after_read JSON_parse JSON_stringify rs w
                          Hopen Hdisk) as Hw.
  destruct (readRanges_keeps_switches JSON_parse w) as [Hopen1 _].
  assert (Hdel :
    deleteRange JSON_parse JSON_stringify rangeId w
    = if negb (Nat.eqb
                 (List.length
                    (filter (fun r => negb (String.eqb (id r) rangeId))
                       (fst (readRanges JSON_parse w))))
                 (List.length (fst (readRanges JSON_parse w))))
      then (true,
            storeFile
              (JSON_stringify
                 (filter (fun r => negb (String.eqb (id r) rangeId))
                    (fst (readRanges JSON_parse w))))
              (snd (readRanges JSON_parse w)))
      else (false, snd (readRanges JSON_parse w))).
  { unfold deleteRange. destruct (readRanges JSON_parse w) as [ranges w1].
    simpl in *. destruct (negb _); [now rewrite Hw | reflexivity]. }
  rewrite Hdel. clear Hdel Hw.
  set (stored := fst (readRanges JSON_parse w)) in *.
  set (w1 := snd (readRanges JSON_parse w)) in *.
  set (kept := filter (fun r => negb (String.eqb (id r) rangeId)) stored).
  destruct (negb (Nat.eqb (List.length kept) (List.length stored)));
    simpl; [intros _|discriminate].
  split; [reflexivity|]. split.
  - intros r. unfold kept. rewrite filter_In, negb_true_iff, String.eqb_neq.
    reflexivity.
  - intros Hne Hparse. unfold deleteRange.
    rewrite (readRanges_after_store JSON_parse JSON_stringify kept w1)
      by (auto; congruence).
    assert (Hsame : filter (fun r => negb (String.eqb (id r) rangeId)) kept = kept).
    { unfold kept. clear. induction stored as [|x rest IH]; simpl; [reflexivity|].
      destruct (negb (String.eqb (id x) rangeId)) eqn:Hx; simpl; [|exact IH].
      now rewrite Hx, IH. }
    rewrite Hsame, Nat.eqb_refl. reflexivity.
Qed.

(** The one stored range is deleted; a second deletion finds nothing. *)
Lemma deleteRange_removes_every_match_witness :
  rangesFile (snd (deleteRange toggleParse toggleStringify "1700000000000"
                     (sampleWorld (Some [83]%N))))
  = Some [91; 93]%N /\
  fst (deleteRange toggleParse toggleStringify "1700000000000"
         (snd (deleteRange toggleParse toggleStringify "1700000000000"
                 (sampleWorld (Some [83]%N)))))
  = false.
Proof.
  destruct (deleteRange_removes_every_match toggleParse toggleStringify
              "1700000000000" (sampleWorld (Some [83]%N)))
    as (Hfile & _ & Hagain).
  - reflexivity.
  - reflexivity.
  - reflexivity.
  - split; [exact Hfile|].
    rewrite Hagain; [reflexivity | discriminate | reflexivity].
Defined.

(** X10.  In an open workspace on a writable disk, an [updateRange] or a
    [toggleRangeEnabled] that finds the id changes the first stored range
    with that id and no other: the set written is the set read with that
    one range replaced, so a later range with the same id is untouched. *)
Theorem mutations_change_first_match_only
    (JSON_parse : Js.text -> result (list NvtxRange))
    (JSON_stringify : list NvtxRange -> Js.text)
    (rangeId : string) (updates : PartialRange) (w : World) :
  workspaceOpen w = true -> diskWritable w = true ->
  (exists r, In r (fst (readRanges JSON_parse w)) /\ id r = rangeId) ->
  exists pre r post,
    fst (readRanges JSON_parse w) = pre ++ r :: post /\
    Forall (fun x => id x <> rangeId) pre /\
    id r = rangeId /\
    rangesFile (snd (updateRange JSON_parse JSON_stringify rangeId updates w))
    = Some (JSON_stringify (pre ++ assign r updates :: post)) /\
    rangesFile (snd (toggleRangeEnabled JSON_parse JSON_stringify rangeId w))
    = Some (JSON_stringify (pre ++ toggled r :: post)).
Proof.
  intros Hopen Hdisk Hfound.
  pose proof (fun rs => writeRanges_after_read JSON_parse JSON_stringify rs w
                          Hopen Hdisk) as Hw.
  unfold updateRange, toggleRangeEnabled.
  destruct (readRanges JSON_parse w) as [ranges w1]. simpl in *.
  pose proof (proj2 (mutateFirst_found rangeId
                       (fun targetRange => assign targetRange updates) ranges)
                Hfound) as [ranges1 H1].
  pose proof (proj2 (mutateFirst_found rangeId
                       (fun targetRange =>
                          setIsEnabled targetRange (negb (isEnabled targetRange)))
                       ranges)
                Hfound) as [ranges2 H2].
  rewrite H1, H2. simpl. rewrite !Hw.
  destruct (mutateFirst_decompose _ _ _ _ H1) as (pre & r & post & Hsplit & Hpre & Hid & ->).
  exists pre, r, post. repeat split; auto.
  destruct (mutateFirst_decompose _ _ _ _ H2)
    as (pre' & r' & post' & Hsplit' & Hpre' & Hid' & ->).
  assert (Heq : pre' = pre /\ r' = r /\ post' = post).
  { clear -Hsplit Hsplit' Hpre Hpre' Hid Hid'. subst ranges.
    revert pre' Hsplit' Hpre'.
    induction pre as [|x pre IH]; intros pre' Hsplit' Hpre'.
    - destruct pre' as [|y pre']; simpl in *.
      + injection Hsplit' as -> ->. auto.
      + injection Hsplit' as -> _. inversion Hpre'; subst. contradiction.
    - destruct pre' as [|y pre']; simpl in *.
      + injection Hsplit' as <- _. inversion Hpre; subst. contradiction.
      + injection Hsplit' as <- Hrest.
        inversion Hpre; subst. inversion Hpre'; subst.
        destruct (IH H2 pre' Hrest H4) as (-> & -> & ->). auto. }
  destruct Heq as (-> & -> & ->). reflexivity.
Qed.

(** The stored range is the first with its id: toggling writes it
    disabled. *)
Lemma mutations_change_first_match_only_witness :
  rangesFile (snd (toggleRangeEnabled toggleParse toggleStringify "1700000000000"
                     (sampleWorld (Some [83]%N))))
  = Some [82]%N.
Proof.
  destruct (mutations_change_first_match_only toggleParse toggleStringify
              "1700000000000"
              (mkPartial None None None None None None None)
              (sampleWorld (Some [83]%N)))
    as (pre & r & post & Hsplit & _ & _ & _ & Htog).
  - reflexivity.
  - reflexivity.
  - exists (blockRange 10 15). split; [left|]; reflexivity.
  - rewrite Htog. simpl in Hsplit.
    destruct pre as [|x pre]; simpl in Hsplit.
    + injection Hsplit as <- <-. reflexivity.
    + injection Hsplit as _ Hrest. destruct pre; discriminate.
Defined.

(** X11.  In an open workspace on a writable disk, toggling a stored range
    twice writes back the set that was read at first, provided the codec
    reads back the set written in between: both calls find the id, and the
    file ends as the serialisation of the original ranges. *)
Theorem toggleRangeEnabled_twice_restores
    (JSON_parse : Js.text -> result (list NvtxRange))
    (JSON_stringify : list NvtxRange -> Js.text)
    (rangeId : string) (w : World) :
  workspaceOpen w = true -> diskWritable w = true ->
  (exists r, In r (fst (readRanges JSON_parse w)) /\ id r = rangeId) ->
  (forall between,
     mutateFirst rangeId toggled (fst (readRanges JSON_parse w)) = Some between ->
     Js.trim (JSON_stringify between) <> [] /\
     JSON_parse (Js.trim (JSON_stringify between)) = Ok between) ->
  fst (toggleRangeEnabled JSON_parse JSON_stringify rangeId w) = true /\
  fst (toggleRangeEnabled JSON_parse JSON_stringify rangeId
         (snd (toggleRangeEnabled JSON_parse JSON_stringify rangeId w))) = true /\
  rangesFile
    (snd (toggleRangeEnabled JSON_parse JSON_stringify rangeId
            (snd (toggleRangeEnabled JSON_parse JSON_stringify rangeId w))))
  = Some (JSON_stringify (fst (readRanges JSON_parse w))).
Proof.
  intros Hopen Hdisk Hfound Hcodec.
  pose proof (fun rs => writeRanges_after_read JSON_parse JSON_stringify rs w
                          Hopen Hdisk) as Hw.
  destruct (readRanges_keeps_switches JSON_parse w) as [Hopen1 Hdisk1].
  assert (Htoggle : forall w0,
    toggleRangeEnabled JSON_parse JSON_stringify rangeId w0
    = match mutateFirst rangeId toggled (fst (readRanges JSON_parse w0)) with
      | Some ranges' =>
          (true, writeRanges JSON_stringify ranges' (snd (readRanges JSON_parse w0)))
      | None => (false, snd (readRanges JSON_parse w0))
      end).
  { intros w0. unfold toggleRangeEnabled.
    destruct (readRanges JSON_parse w0) as [ranges0 w0']. reflexivity. }
  destruct (proj2 (mutateFirst_found rangeId toggled (fst (readRanges JSON_parse w)))
              Hfound) as [between Hbetween].
  destruct (Hcodec between Hbetween) as [Hne Hparse].
  rewrite (Htoggle w), Hbetween. simpl. rewrite Hw.
  rewrite Htoggle.
  rewrite (readRanges_after_store JSON_parse JSON_stringify between
             (snd (readRanges JSON_parse w))) by (auto; congruence).
  simpl. rewrite (mutateFirst_toggled_back _ _ _ Hbetween). simpl.
  rewrite writeRanges_stores by (simpl; congruence).
  auto.
Qed.

(** The stored range is disabled and enabled again. *)
Lemma toggleRangeEnabled_twice_restores_witness :
  rangesFile
    (snd (toggleRangeEnabled toggleParse toggleStringify "1700000000000"
            (snd (toggleRangeEnabled toggleParse toggleStringify "1700000000000"
                    (sampleWorld (Some [83]%N))))))
  = Some [83]%N.
Proof.
  destruct (toggleRangeEnabled_twice_restores toggleParse toggleStringify
              "1700000000000" (sampleWorld (Some [83]%N))) as (_ & _ & Hfile).
  - reflexivity.
  - reflexivity.
  - exists (blockRange 10 15). split; [left|]; reflexivity.
  - intros between Hbetween. simpl in Hbetween. injection Hbetween as <-.
    split; [discriminate | reflexivity].
  - exact Hfile.
Defined.

Lemma name_test_hasContent (n : string) :
  isEmptyString n || isEmptyText (Js.trim (Js.ofString n))
  = negb (hasContent (Js.ofString n)).
Proof.
  rewrite <- trim_length_hasContent.
  assert (Hempty : forall t : Js.text, isEmptyText t = negb (Js.length t >? 0)).
  { intros [|x t]; [reflexivity|].
    unfold Js.length. simpl isEmptyText. symmetry.
    apply negb_false_iff. apply Z.gtb_lt. simpl List.length. lia. }
  rewrite <- Hempty. now destruct n.
Qed.

(** X12.  [validateRange] accepts a range exactly when its id and file path
    are not empty, its name has a character that is not whitespace, its
    [startLine] is at least 1 and, for a block range with an [endLine], the
    [endLine] is not above the [startLine]; the [endLine] of a range of
    type [event] is not looked at.  The errors listed are empty exactly
    then. *)
Theorem validateRange_accepts_iff (r : NvtxRange) :
  (isValid (validateRange r) = true <->
   id r <> ""%string /\
   hasContent (Js.ofString (name r)) = true /\
   filePath r <> ""%string /\
   1 <= startLine r /\
   (type r = block -> forall e, endLine r = Some e -> startLine r <= e)) /\
  (isValid (validateRange r) = true <-> errors (validateRange r) = []).
Proof.
  unfold validateRange. rewrite name_test_hasContent. unfold isEmptyString.
  destruct (String.eqb_spec (id r) "") as [Hid|Hid];
    destruct (hasContent (Js.ofString (name r))) eqn:Hn;
    destruct (String.eqb_spec (filePath r) "") as [Hp|Hp];
    destruct (Z.ltb_spec (startLine r) 1) as [Hs|Hs];
    destruct (type r) eqn:Ht;
    destruct (endLine r) as [e|] eqn:He;
    try destruct (Z.ltb_spec e (startLine r)) as [Hlt|Hlt];
    simpl; (split; split);
    try discriminate; try reflexivity;
    try (intros (H1 & H2 & H3 & H4 & H5); try congruence; try lia;
         specialize (H5 eq_refl e eq_refl); lia);
    try (intros _; repeat split; try assumption; try congruence; try lia;
         intros; try discriminate; try congruence; try lia).
Qed.

(** ** The commands *)

Lemma find_first_match rangeId (pre post : list NvtxRange) r :
  Forall (fun x => id x <> rangeId) pre -> id r = rangeId ->
  find (fun x => String.eqb (id x) rangeId) (pre ++ r :: post) = Some r.
Proof.
  intros Hpre Hid. induction Hpre as [|x pre Hx _ IH]; simpl.
  - apply String.eqb_eq in Hid. now rewrite Hid.
  - apply String.eqb_neq in Hx. now rewrite Hx.
Qed.

Lemma newPosition_ok l c : 0 <= l -> 0 <= c -> newPosition l c = Ok (mkPos l c).
Proof.
  intros Hl Hc. unfold newPosition.
  replace (l <? 0) with false by (symmetry; apply Z.ltb_ge; lia).
  now replace (c <? 0) with false by (symmetry; apply Z.ltb_ge; lia).
Qed.

(** X13.  A range made by [createRange] with a name that is not blank, a
    file path that is not empty and lines [1 <= startLine <= endLine]
    passes [validateRange], whatever the clock reads and whatever type and
    enabled state are asked for. *)
Theorem created_range_passes_validation
    (now : Z) (rangeName path : string) (s e : Z)
    (ty : option RangeType) (en : option bool) :
  hasContent (Js.ofString rangeName) = true -> path <> ""%string ->
  1 <= s -> s <= e ->
  validateRange (createRange now rangeName path s (Some e) ty en)
  = mkValidation true [].
Proof.
  intros Hn Hp Hs He. unfold validateRange, createRange, generateUniqueId. simpl.
  rewrite name_test_hasContent, Hn. unfold isEmptyString.
  pose proof (toString_nonempty now) as Hid.
  apply String.eqb_neq in Hid. rewrite Hid.
  apply String.eqb_neq in Hp. rewrite Hp.
  replace (s <? 1) with false by (symmetry; apply Z.ltb_ge; lia).
  replace (e <? s) with false by (symmetry; apply Z.ltb_ge; lia).
  simpl. now destruct ty as [[|]|].
Qed.

Lemma created_range_passes_validation_witness :
  validateRange
    (createRange 1700000000000 "forward" "/w/train.py" 10 (Some 15) None None)
  = mkValidation true [].
Proof.
  apply created_range_passes_validation.
  - reflexivity.
  - discriminate.
  - lia.
  - lia.
Defined.

(** X14.  With a Python editor, a selection that is not empty and starts at
    a line from 0 on, and a name given, the command adds one range through
    [addRange]: an enabled block range of the editor's file whose lines are
    the selection's first and last line plus one, which satisfies the
    invariant of the data model; it refreshes the tree once and names the
    lines in its message. *)
Theorem createRangeFromSelection_adds_block
    (JSON_parse : Js.text -> result (list NvtxRange))
    (JSON_stringify : list NvtxRange -> Js.text)
    (now : Z) (ed : Commands.TextEditor) (rangeName : string) (w : World) :
  Commands.languageId ed = "python"%string ->
  Commands.selectionIsEmpty (Commands.selection ed) = false ->
  rangeName <> ""%string ->
  0 <= line (start (Commands.selection ed)) <= line (end_ (Commands.selection ed)) ->
  Commands.createRangeFromSelection JSON_parse JSON_stringify now (Some ed)
    (Some rangeName) w
  = (Commands.mkOutcome
       [InformationMessage
          ("NVTX Range '" ++ rangeName ++ "' added for lines "
           ++ Js.toString (line (start (Commands.selection ed)) + 1) ++ "-"
           ++ Js.toString (line (end_ (Commands.selection ed)) + 1) ++ ".")%string]
       1,
     addRange JSON_parse JSON_stringify
       (mkRange (Js.toString now) rangeName (fsPath (Commands.editorDocument ed))
          block (line (start (Commands.selection ed)) + 1)
          (Some (line (end_ (Commands.selection ed)) + 1)) true)
       w) /\
  validRange
    (mkRange (Js.toString now) rangeName (fsPath (Commands.editorDocument ed))
       block (line (start (Commands.selection ed)) + 1)
       (Some (line (end_ (Commands.selection ed)) + 1)) true).
Proof.
  intros Hlang Hsel Hname Hlines. split.
  - unfold Commands.createRangeFromSelection.
    rewrite Hlang, Hsel. simpl.
    apply String.eqb_neq in Hname. unfold isEmptyString. rewrite Hname.
    replace (line (start (Commands.selection ed)) + 1
             >? line (end_ (Commands.selection ed)) + 1) with false
      by (symmetry; rewrite Z.gtb_ltb; apply Z.ltb_ge; lia).
    reflexivity.
  - split; simpl; [lia|]. intros e [= <-]. lia.
Qed.

(** Lines 10 to 15 selected in the sample document and named [forward]. *)
Lemma createRangeFromSelection_adds_block_witness :
  snd (Commands.createRangeFromSelection toggleParse toggleStringify 1700000000000
         (Some sampleEditor) (Some "forward"%string) (sampleWorld None))
  = addRange toggleParse toggleStringify (blockRange 10 15) (sampleWorld None).
Proof.
  destruct (createRangeFromSelection_adds_block toggleParse toggleStringify
              1700000000000 sampleEditor "forward" (sampleWorld None))
    as [Hrun _].
  - reflexivity.
  - reflexivity.
  - discriminate.
  - simpl; lia.
  - rewrite Hrun. reflexivity.
Defined.

(** X15.  The command changes the world only through that [addRange]: in
    every other case (no editor, a language other than Python, an empty
    selection, the prompt dismissed or left empty, a selection that ends
    above its start) the world is returned as it was. *)
Theorem createRangeFromSelection_writes_only_after_guards
    (JSON_parse : Js.text -> result (list NvtxRange))
    (JSON_stringify : list NvtxRange -> Js.text)
    (now : Z) (editor : option Commands.TextEditor) (inputBox : option string)
    (w : World) :
  snd (Commands.createRangeFromSelection JSON_parse JSON_stringify now editor
         inputBox w) = w \/
  exists ed rangeName,
    editor = Some ed /\
    Commands.languageId ed = "python"%string /\
    Commands.selectionIsEmpty (Commands.selection ed) = false /\
    inputBox = Some rangeName /\ rangeName <> ""%string /\
    line (start (Commands.selection ed)) <= line (end_ (Commands.selection ed)) /\
    snd (Commands.createRangeFromSelection JSON_parse JSON_stringify now editor
           inputBox w)
    = addRange JSON_parse JSON_stringify
        (mkRange (Js.toString now) rangeName (fsPath (Commands.editorDocument ed))
           block (line (start (Commands.selection ed)) + 1)
           (Some (line (end_ (Commands.selection ed)) + 1)) true)
        w.
Proof.
  unfold Commands.createRangeFromSelection.
  destruct editor as [ed|]; [|auto].
  destruct (String.eqb_spec (Commands.languageId ed) "python") as [Hlang|Hlang];
    simpl; [|auto].
  destruct (Commands.selectionIsEmpty (Commands.selection ed)) eqn:Hsel; [auto|].
  destruct inputBox as [rangeName|]; [|auto].
  unfold isEmptyString.
  destruct (String.eqb_spec rangeName "") as [Hname|Hname]; [auto|].
  destruct (line (start (Commands.selection ed)) + 1
            >? line (end_ (Commands.selection ed)) + 1) eqn:Hgt; [auto|].
  right. exists ed, rangeName. repeat split; auto.
  rewrite Z.gtb_ltb in Hgt. apply Z.ltb_ge in Hgt. lia.
Qed.

(** X16.  Navigating to a block range whose lines lie in the document
    selects from column 0 of its first line to the end of the text of its
    last line; when its [endLine] is past the end of the document nothing
    is selected and the failure is shown as an error message. *)
Theorem navigateToRange_selects_whole_lines
    (document : TextDocument) (target : NvtxRange) (e : Z) :
  endLine target = Some e -> 1 <= startLine target ->
  (1 <= e <= lineCount document ->
   Commands.navigateToRange (Ok document) (Some target)
   = (Some (mkPos (startLine target - 1) 0,
            mkPos (e - 1) (Js.length (nth (Z.to_nat (e - 1)) (lines document) []))),
      [])) /\
  (lineCount document < e ->
   exists msg,
     Commands.navigateToRange (Ok document) (Some target)
     = (None, [ErrorMessage msg])).
Proof.
  intros He Hs. unfold Commands.navigateToRange, Commands.rangeSelection. simpl.
  rewrite He, newPosition_ok by lia. simpl. unfold lineAt. split.
  - intros [H1 H2].
    replace (0 <=? e - 1) with true by (symmetry; apply Z.leb_le; lia).
    replace (e - 1 <? lineCount document) with true by (symmetry; apply Z.ltb_lt; lia).
    simpl. rewrite newPosition_ok by (unfold Js.length; lia). reflexivity.
  - intros H.
    replace (e - 1 <? lineCount document) with false by (symmetry; apply Z.ltb_ge; lia).
    rewrite andb_false_r. simpl. eauto.
Qed.

(** The range made from the selection of lines 10 to 15 leads back to those
    lines; in a document of 12 lines it cannot be reached. *)
Lemma navigateToRange_selects_whole_lines_witness :
  Commands.navigateToRange (Ok sampleDocument) (Some (blockRange 10 15))
  = (Some (mkPos 9 0, mkPos 14 9), []) /\
  fst (Commands.navigateToRange (Ok (mkDoc currentFile (repeat codeLine 12)))
         (Some (blockRange 10 15)))
  = None.
Proof.
  split.
  - destruct (navigateToRange_selects_whole_lines sampleDocument (blockRange 10 15) 15)
      as [Hin _].
    + reflexivity.
    + simpl; lia.
    + rewrite Hin; [reflexivity|]. split; [lia|]. apply Z.leb_le. reflexivity.
  - destruct (navigateToRange_selects_whole_lines
                (mkDoc currentFile (repeat codeLine 12)) (blockRange 10 15) 15)
      as [_ Hout].
    + reflexivity.
    + simpl; lia.
    + destruct Hout as [msg ->]; [|reflexivity]. apply Z.ltb_lt. reflexivity.
Defined.

(** X17.  After a toggle from the tree that finds the item's id, the
    message names the state the toggle has left: the first stored range
    with that id was enabled and the message says [disabled], or the other
    way round, provided the codec reads back the set that was written. *)
Theorem toggleEnableRange_reports_new_state
    (JSON_parse : Js.text -> result (list NvtxRange))
    (JSON_stringify : list NvtxRange -> Js.text)
    (item : NvtxRange) (w : World) :
  workspaceOpen w = true -> diskWritable w = true ->
  (exists r, In r (fst (readRanges JSON_parse w)) /\ id r = id item) ->
  (forall between,
     mutateFirst (id item) toggled (fst (readRanges JSON_parse w)) = Some between ->
     Js.trim (JSON_stringify between) <> [] /\
     JSON_parse (Js.trim (JSON_stringify between)) = Ok between) ->
  exists pre r post,
    fst (readRanges JSON_parse w) = pre ++ r :: post /\
    Forall (fun x => id x <> id item) pre /\ id r = id item /\
    fst (Commands.toggleEnableRange JSON_parse JSON_stringify (Some item) w)
    = Commands.mkOutcome
        [InformationMessage
           ("Range '" ++ name r ++ "' "
            ++ (if isEnabled r then "disabled" else "enabled") ++ ".")%string]
        1.
Proof.
  intros Hopen Hdisk Hfound Hcodec.
  pose proof (fun rs => writeRanges_after_read JSON_parse JSON_stringify rs w
                          Hopen Hdisk) as Hw.
  destruct (readRanges_keeps_switches JSON_parse w) as [Hopen1 _].
  destruct (proj2 (mutateFirst_found (id item) toggled (fst (readRanges JSON_parse w)))
              Hfound) as [between Hbetween].
  destruct (Hcodec between Hbetween) as [Hne Hparse].
  destruct (mutateFirst_decompose _ _ _ _ Hbetween)
    as (pre & r & post & Hsplit & Hpre & Hid & Hbetween').
  exists pre, r, post. repeat split; auto.
  unfold Commands.toggleEnableRange, toggleRangeEnabled.
  destruct (readRanges JSON_parse w) as [ranges w1]. simpl in *.
  change (fun targetRange : NvtxRange =>
            setIsEnabled targetRange (negb (isEnabled targetRange))) with toggled.
  rewrite Hbetween, Hw.
  rewrite (readRanges_after_store JSON_parse JSON_stringify between w1)
    by (auto; congruence).
  rewrite Hbetween', find_first_match by assumption.
  simpl. now destruct (isEnabled r).
Qed.

(** The stored range is enabled; the message after the toggle says
    [disabled]. *)
Lemma toggleEnableRange_reports_new_state_witness :
  fst (Commands.toggleEnableRange toggleParse toggleStringify
         (Some (blockRange 10 15)) (sampleWorld (Some [83]%N)))
  = Commands.mkOutcome [InformationMessage "Range 'forward' disabled."] 1.
Proof.
  destruct (toggleEnableRange_reports_new_state toggleParse toggleStringify
              (blockRange 10 15) (sampleWorld (Some [83]%N)))
    as (pre & r & post & Hsplit & _ & _ & Hmsg).
  - reflexivity.
  - reflexivity.
  - exists (blockRange 10 15). split; [left|]; reflexivity.
  - intros between Hbetween. simpl in Hbetween. injection Hbetween as <-.
    split; [discriminate | reflexivity].
  - rewrite Hmsg. simpl in Hsplit.
    destruct pre as [|x pre]; simpl in Hsplit.
    + injection Hsplit as <- <-. reflexivity.
    + injection Hsplit as _ Hrest. destruct pre; discriminate.
Defined.

(** ** The tree view *)




Lemma pushRange_keys path r groups :
  map fst (pushRange path r groups)
  = if existsb (fun entry => String.eqb (fst entry) path) groups
    then map fst groups
    else map fst groups ++ [path].
Proof.
  induction groups as [|[p rs] rest IH]; simpl; [reflexivity|].
  destruct (String.eqb p path); simpl; [reflexivity|].
  rewrite IH. now destruct (existsb _ rest).
Qed.

Lemma pushRange_In path r groups q g :
  NoDup (map fst groups) ->
  In (q, g) (pushRange path r groups) <->
  (q <> path /\ In (q, g) groups) \/
  (q = path /\
   ((exists g0, In (path, g0) groups /\ g = g0 ++ [r]) \/
    (~ In path (map fst groups) /\ g = [r]))).
Proof.
  induction groups as [|[p rs] rest IH]; simpl; intros Hnd.
  - split.
    + intros [H|[]]. injection H as <- <-. right. split; [reflexivity|]. right. auto.
    + intros [[_ []]|[-> [[g0 [[] _]]|[_ ->]]]]. auto.
  - inversion Hnd as [|? ? Hnotin Hnd']; subst.
    assert (Hkey : forall g0, In (p, g0) rest -> False).
    { intros g0 Hin. apply Hnotin. apply (in_map fst) in Hin. exact Hin. }
    destruct (String.eqb_spec p path) as [->|Hne]; simpl.
    + split.
      * intros [H|Hin].
        -- injection H as <- <-. right. split; [reflexivity|]. left. exists rs. auto.
        -- left. split; [|auto]. intros ->. eapply Hkey; eauto.
      * intros [[Hq [H|Hin]]|[-> [[g0 [[H|Hin] ->]]|[Hno _]]]].
        -- injection H as -> ->. contradiction.
        -- auto.
        -- injection H as <-. auto.
        -- exfalso. eapply Hkey; eauto.
        -- exfalso. apply Hno. auto.
    + rewrite (IH Hnd'). split.
      * intros [H|[[Hq Hin]|[-> [[g0 [Hin ->]]|[Hno ->]]]]].
        -- injection H as <- <-. left. auto.
        -- left. auto.
        -- right. split; [reflexivity|]. left. exists g0. auto.
        -- right. split; [reflexivity|]. right. split; [|reflexivity].
           intros [Heq|Hin]; [contradiction|auto].
      * intros [[Hq [H|Hin]]|[-> [[g0 [[H|Hin] ->]]|[Hno ->]]]].
        -- injection H as -> ->. auto.
        -- right. left. auto.
        -- injection H as -> _. contradiction.
        -- right. right. split; [reflexivity|]. left. exists g0. auto.
        -- right. right. split; [reflexivity|]. right. split; [|reflexivity].
           intros Hin. apply Hno. auto.
Qed.

Lemma filter_sameFile_snoc path seen r :
  filter (sameFile path) (seen ++ [r])
  = filter (sameFile path) seen ++ (if sameFile path r then [r] else []).
Proof. rewrite filter_app. reflexivity. Qed.

Lemma pushRange_groupsOf seen groups r :
  groupsOf seen groups ->
  groupsOf (seen ++ [r]) (pushRange (filePath r) r groups).
Proof.
  intros [Hnd Hgroups]. split.
  - rewrite pushRange_keys. destruct (existsb _ groups) eqn:Hex; [assumption|].
    apply NoDup_app; repeat split; try assumption.
    + constructor; [intros []|constructor].
    + intros p Hin [<-|[]].
      apply in_map_iff in Hin. destruct Hin as [[p' g] [Hp Hin]]. simpl in Hp. subst p'.
      assert (Htrue : existsb (fun entry => String.eqb (fst entry) (filePath r)) groups
                      = true).
      { apply existsb_exists. exists (filePath r, g). split; [assumption|].
        apply String.eqb_refl. }
      congruence.
  - intros path g. rewrite (pushRange_In _ _ _ _ _ Hnd).
    rewrite filter_sameFile_snoc. unfold sameFile at 2.
    split.
    + intros [[Hq Hin]|[-> [[g0 [Hin ->]]|[Hno ->]]]].
      * apply Hgroups in Hin. destruct Hin as [-> Hne].
        assert (Hf : String.eqb (filePath r) path = false)
          by (apply String.eqb_neq; congruence).
        rewrite Hf, app_nil_r. auto.
      * apply Hgroups in Hin. destruct Hin as [-> Hne].
        rewrite String.eqb_refl. split; [reflexivity|].
        intros H. apply app_eq_nil in H. destruct H. discriminate.
      * rewrite String.eqb_refl.
        assert (Hnone : filter (sameFile (filePath r)) seen = []).
        { destruct (filter (sameFile (filePath r)) seen) as [|x l] eqn:Hf;
            [reflexivity|].
          exfalso. apply Hno.
          assert (Hin : In (filePath r, x :: l) groups).
          { apply Hgroups. split; [now rewrite Hf|discriminate]. }
          apply (in_map fst) in Hin. exact Hin. }
        rewrite Hnone. split; [reflexivity|discriminate].
    + intros [-> Hne].
      destruct (String.eqb_spec (filePath r) path) as [Heq|Hdiff].
      * subst path. right. split; [reflexivity|].
        destruct (filter (sameFile (filePath r)) seen) as [|x l] eqn:Hf.
        -- right. split; [|reflexivity].
           intros Hin. apply in_map_iff in Hin.
           destruct Hin as [[p' g] [Hp Hin]]. simpl in Hp. subst p'.
           apply Hgroups in Hin. destruct Hin as [-> Hne'].
           apply Hne'. exact Hf.
        -- left. exists (x :: l). split; [|reflexivity].
           apply Hgroups. split; [now rewrite Hf|discriminate].
      * left. split; [congruence|].
        rewrite app_nil_r in *. apply Hgroups. auto.
Qed.

Lemma groupByFile_snoc seen r :
  groupByFile (seen ++ [r]) = pushRange (filePath r) r (groupByFile seen).
Proof. unfold groupByFile. now rewrite fold_left_app. Qed.

Lemma groupByFile_groupsOf ranges : groupsOf ranges (groupByFile ranges).
Proof.
  induction ranges as [|r seen IH] using rev_ind.
  - split; simpl; [constructor|].
    intros path g. split; [intros []|intros [-> H]; now apply H].
  - rewrite groupByFile_snoc. now apply pushRange_groupsOf.
Qed.


Lemma pushRange_sizes path r groups :
  groupSizes (pushRange path r groups) = S (groupSizes groups).
Proof.
  induction groups as [|[p rs] rest IH]; simpl; [reflexivity|].
  destruct (String.eqb p path); simpl.
  - rewrite length_app. simpl. lia.
  - rewrite IH. lia.
Qed.

Lemma groupByFile_sizes ranges :
  groupSizes (groupByFile ranges) = List.length ranges.
Proof.
  induction ranges as [|r seen IH] using rev_ind; [reflexivity|].
  rewrite groupByFile_snoc, pushRange_sizes, IH, length_app. simpl. lia.
Qed.

(** X18.  Under the workspace node the tree shows one file node for each
    file path that a stored range has, no path twice, and the node of a
    path holds exactly the ranges that [getRangesForFile] returns for it,
    in stored order; the numbers of ranges on the file nodes add up to the
    number of stored ranges. *)
Theorem tree_file_nodes_partition_the_ranges
    (JSON_parse : Js.text -> result (list NvtxRange))
    (asRelativePath : string -> string)
    (workspaceName label : string) (w : World) :
  workspaceOpen w = true ->
  exists groups,
    fst (fst (getChildren JSON_parse asRelativePath workspaceName
                (Some (WorkspaceItem label)) w))
    = map (fun entry => FileItem (asRelativePath (fst entry)) (fst entry) (snd entry))
        groups /\
    NoDup (map fst groups) /\
    (forall path g,
       In (path, g) groups <->
       g = fst (getRangesForFile JSON_parse path w) /\ g <> []) /\
    groupSizes groups = List.length (fst (readRanges JSON_parse w)).
Proof.
  intros Hopen. unfold getChildren, getRangesForFile. rewrite Hopen. simpl.
  destruct (readRanges JSON_parse w) as [ranges w1]. simpl.
  exists (groupByFile ranges).
  destruct (groupByFile_groupsOf ranges) as [Hnd Hgroups].
  split; [reflexivity|]. split; [assumption|]. split.
  - intros path g. apply Hgroups.
  - apply groupByFile_sizes.
Qed.

(** Three stored ranges of two files give two file nodes, in the order in
    which the files first appear. *)
Lemma tree_file_nodes_partition_the_ranges_witness :
  groupByFile [blockRange 10 15; otherFileRange "2" 1 3; eventRange 20]
  = [(currentFile, [blockRange 10 15; eventRange 20]);
     ("/w/eval.py"%string, [otherFileRange "2" 1 3])] /\
  exists groups,
    fst (fst (getChildren toggleParse (fun p => p) "w"
                (Some (WorkspaceItem "w")) (sampleWorld (Some [83]%N))))
    = map (fun entry => FileItem (fst entry) (fst entry) (snd entry)) groups /\
    groupSizes groups = 1%nat.
Proof.
  split; [reflexivity|].
  destruct (tree_file_nodes_partition_the_ranges toggleParse (fun p => p) "w" "w"
              (sampleWorld (Some [83]%N)) eq_refl)
    as (groups & Hchildren & _ & _ & Hsizes).
  exists groups. split; [exact Hchildren | exact Hsizes].
Defined.

(** ** Decorations and code lenses *)

Lemma newRange_ordered a b :
  line a < line b \/ (line a = line b /\ character a <= character b) ->
  newRange a b = mkVsRange a b.
Proof.
  intros H. unfold newRange, isBefore.
  destruct (Z.ltb_spec (line a) (line b)) as [Hlt|Hge]; simpl; [reflexivity|].
  destruct H as [H|[Hl Hc]]; [lia|].
  destruct (Z.eqb_spec (line a) (line b)) as [_|Hne]; simpl; [|contradiction].
  destruct (Z.ltb_spec (character a) (character b)) as [Hc'|Hc']; [reflexivity|].
  destruct a as [la ca], b as [lb cb]; simpl in *.
  assert (ca = cb) by lia. now subst.
Qed.

Lemma blockDecoration_valid document r :
  validRange r -> rangeEndOf r < lineCount document ->
  NvtxDecorationManager.blockDecoration document r
  = Ok (wholeLinesDecoration document r).
Proof.
  intros [Hs Hv] Hend. unfold NvtxDecorationManager.blockDecoration.
  change (match endLine r with
          | Some e => if truthy (Some e) then e - 1 else startLine r - 1
          | None => startLine r - 1
          end) with (rangeEndOf r).
  assert (Hle : startLine r - 1 <= rangeEndOf r).
  { unfold rangeEndOf. destruct (endLine r) as [e|] eqn:He; [|lia].
    specialize (Hv e eq_refl). simpl. destruct (e =? 0); simpl; lia. }
  rewrite newPosition_ok by lia. simpl.
  unfold lineAt.
  replace (0 <=? rangeEndOf r) with true by (symmetry; apply Z.leb_le; lia).
  replace (rangeEndOf r <? lineCount document) with true
    by (symmetry; apply Z.ltb_lt; lia).
  simpl. rewrite newPosition_ok by (unfold Js.length; lia). simpl.
  unfold wholeLinesDecoration. f_equal. f_equal.
  apply newRange_ordered. simpl. unfold Js.length. lia.
Qed.

Lemma blockDecoration_stale document r e :
  endLine r = Some e -> lineCount document < e ->
  exists m, NvtxDecorationManager.blockDecoration document r = Throw m.
Proof.
  intros He Hlt. unfold NvtxDecorationManager.blockDecoration. rewrite He.
  assert (He0 : e <> 0) by (unfold lineCount in Hlt; lia).
  simpl. apply Z.eqb_neq in He0. rewrite He0. simpl.
  destruct (newPosition (startLine r - 1) 0) as [p|m]; simpl; [|eauto].
  unfold lineAt.
  replace (e - 1 <? lineCount document) with false by (symmetry; apply Z.ltb_ge; lia).
  rewrite andb_false_r. simpl. eauto.
Qed.

Lemma groupDecorations_throws document r : forall ranges groups,
  In r ranges -> type r = block ->
  (exists m, NvtxDecorationManager.blockDecoration document r = Throw m) ->
  exists m, NvtxDecorationManager.groupDecorations document ranges groups = Throw m.
Proof.
  induction ranges as [|x rest IH]; simpl; intros groups Hin Hblock Hthrow.
  - contradiction.
  - destruct Hin as [->|Hin].
    + rewrite Hblock. destruct Hthrow as [m ->]. eauto.
    + destruct (type x); [|eauto].
      destruct (NvtxDecorationManager.blockDecoration document x); eauto.
Qed.

Lemma groupDecorations_valid document : forall ranges groups,
  Forall (fun r => type r = block ->
                   validRange r /\ rangeEndOf r < lineCount document) ranges ->
  NvtxDecorationManager.groupDecorations document ranges groups
  = Ok (fst groups
        ++ map (wholeLinesDecoration document)
             (filter (fun r => isBlock r && isEnabled r) ranges),
        snd groups
        ++ map (wholeLinesDecoration document)
             (filter (fun r => isBlock r && negb (isEnabled r)) ranges)).
Proof.
  induction ranges as [|x rest IH]; simpl; intros groups Hall.
  - rewrite !app_nil_r. now destruct groups.
  - inversion Hall as [|? ? Hx Hrest]; subst.
    destruct (type x) eqn:Ht.
    + assert (Hb : isBlock x = true) by (unfold isBlock; now rewrite Ht).
      destruct (Hx eq_refl) as [Hvalid Hend].
      rewrite (blockDecoration_valid document x Hvalid Hend).
      rewrite IH by assumption. rewrite Hb.
      destruct (isEnabled x); simpl; now rewrite <- app_assoc.
    + assert (Hb : isBlock x = false) by (unfold isBlock; now rewrite Ht).
      rewrite Hb. simpl. now apply IH.
Qed.

Lemma groupDecorations_count document : forall ranges groups groups',
  NvtxDecorationManager.groupDecorations document ranges groups = Ok groups' ->
  (List.length (fst groups') + List.length (snd groups')
   = List.length (fst groups) + List.length (snd groups)
     + List.length (filter isBlock ranges))%nat /\
  Forall (fun r => isBlock r = true -> 1 <= startLine r) ranges.
Proof.
  induction ranges as [|x rest IH]; simpl; intros groups groups' H.
  - injection H as <-. split; [lia|constructor].
  - unfold isBlock at 1. destruct (type x) eqn:Ht.
    + destruct (NvtxDecorationManager.blockDecoration document x) as [d|m] eqn:Hd;
        [|discriminate].
      apply IH in H. destruct H as [Hcount Hall]. split.
      * destruct (isEnabled x); simpl in *; rewrite length_app in Hcount;
          simpl in Hcount; lia.
      * constructor; [|assumption]. intros _.
        unfold NvtxDecorationManager.blockDecoration, newPosition in Hd.
        destruct (Z.ltb_spec (startLine x - 1) 0); [discriminate|lia].
    + apply IH in H. destruct H as [Hcount Hall]. split; [assumption|].
      constructor; [|assumption]. unfold isBlock. rewrite Ht. discriminate.
Qed.

Lemma mapR_codeLensOf ranges :
  Forall (fun r => 1 <= startLine r) ranges ->
  exists lenses,
    mapR NvtxCodeLensProvider.codeLensOf ranges = Ok lenses /\
    List.length lenses = List.length ranges /\
    map (fun lens => line (start (lensRange lens))) lenses
    = map (fun r => startLine r - 1) ranges.
Proof.
  induction 1 as [|r rest Hr _ IH]; simpl.
  - exists []. auto.
  - destruct IH as (lenses & -> & Hlen & Hlines).
    unfold NvtxCodeLensProvider.codeLensOf at 1.
    rewrite newPosition_ok by lia. simpl.
    eexists. split; [reflexivity|]. simpl. split; [now rewrite Hlen|].
    rewrite Hlines. f_equal.
    unfold newRange. now destruct (isBefore _ _).
Qed.

(** X19.  With decorations visible, one block range of the active file
    whose [endLine] is past the end of the document makes
    [updateDecorations] throw, after it has cleared what was shown: no
    range of the file is decorated, the well-formed ones included. *)
Theorem stale_range_blocks_all_decorations
    (JSON_parse : Js.text -> result (list NvtxRange))
    (document : TextDocument) (shown : list Decoration * list Decoration)
    (w : World) (r : NvtxRange) (e : Z) :
  In r (fst (readRanges JSON_parse w)) ->
  filePath r = fsPath document -> type r = block ->
  endLine r = Some e -> lineCount document < e ->
  exists m,
    NvtxDecorationManager.updateDecorations JSON_parse true (Some document) shown w
    = (Throw m, ([], []), snd (readRanges JSON_parse w)).
Proof.
  intros Hin Hfile Hblock He Hlt.
  unfold NvtxDecorationManager.updateDecorations.
  destruct (readRanges JSON_parse w) as [ranges w1]. simpl in *.
  destruct (groupDecorations_throws document r
              (filter (fun x => String.eqb (filePath x) (fsPath document)) ranges)
              ([], [])) as [m ->].
  - apply filter_In. split; [assumption|]. apply String.eqb_eq. assumption.
  - assumption.
  - eapply blockDecoration_stale; eauto.
  - eauto.
Qed.

(** The range 10..15 lies in the 40-line document, the range 38..45 does
    not: nothing is shown. *)
Lemma stale_range_blocks_all_decorations_witness :
  exists m,
    NvtxDecorationManager.updateDecorations staleParse true (Some sampleDocument)
      ([wholeLinesDecoration sampleDocument (blockRange 10 15)], [])
      (sampleWorld (Some [83]%N))
    = (Throw m, ([], []), sampleWorld (Some [83]%N)).
Proof.
  apply (stale_range_blocks_all_decorations staleParse sampleDocument
           ([wholeLinesDecoration sampleDocument (blockRange 10 15)], [])
           (sampleWorld (Some [83]%N)) staleRange 45).
  - right. left. reflexivity.
  - reflexivity.
  - reflexivity.
  - reflexivity.
  - apply Z.ltb_lt. reflexivity.
Defined.

(** X20.  With decorations visible, when every block range of the active
    file is well-formed and ends within the document, [updateDecorations]
    shows each of them over its whole lines, from column 0 of the first
    line to the end of the text of the last, the enabled ones in the one
    style and the disabled ones in the other, in stored order; ranges of
    other files and marks are not shown. *)
Theorem decorations_cover_whole_lines
    (JSON_parse : Js.text -> result (list NvtxRange))
    (document : TextDocument) (shown : list Decoration * list Decoration)
    (w : World) :
  Forall (fun r => validRange r /\ rangeEndOf r < lineCount document)
    (blocksOf document (fst (readRanges JSON_parse w))) ->
  NvtxDecorationManager.updateDecorations JSON_parse true (Some document) shown w
  = (Ok tt,
     (map (wholeLinesDecoration document)
        (filter (fun r => isEnabled r)
           (blocksOf document (fst (readRanges JSON_parse w)))),
      map (wholeLinesDecoration document)
        (filter (fun r => negb (isEnabled r))
           (blocksOf document (fst (readRanges JSON_parse w))))),
     snd (readRanges JSON_parse w)).
Proof.
  intros Hall. unfold NvtxDecorationManager.updateDecorations.
  destruct (readRanges JSON_parse w) as [ranges w1]. simpl in *.
  rewrite groupDecorations_valid.
  - simpl. unfold blocksOf. do 3 f_equal.
    + f_equal. clear. induction ranges as [|x rest IH]; simpl; [reflexivity|].
      destruct (String.eqb (filePath x) (fsPath document)); simpl; [|exact IH].
      destruct (isBlock x); simpl; [|exact IH].
      destruct (isEnabled x); simpl; now rewrite IH.
    + f_equal. clear. induction ranges as [|x rest IH]; simpl; [reflexivity|].
      destruct (String.eqb (filePath x) (fsPath document)); simpl; [|exact IH].
      destruct (isBlock x); simpl; [|exact IH].
      destruct (isEnabled x); simpl; now rewrite IH.
  - rewrite Forall_forall in *. intros r Hin Hblock.
    apply Hall. unfold blocksOf. apply filter_In in Hin. destruct Hin as [Hin Hfile].
    apply filter_In. split; [assumption|].
    rewrite Hfile. unfold isBlock. now rewrite Hblock.
Qed.

(** The enabled range 10..15 of the sample file is shown from line 9,
    column 0, to line 14, column 9. *)
Lemma decorations_cover_whole_lines_witness :
  NvtxDecorationManager.updateDecorations toggleParse true (Some sampleDocument)
    ([], []) (sampleWorld (Some [83]%N))
  = (Ok tt,
     ([mkDecoration (mkVsRange (mkPos 9 0) (mkPos 14 9))
         "**NVTX Range: forward** (Enabled)"], []),
     sampleWorld (Some [83]%N)).
Proof.
  rewrite (decorations_cover_whole_lines toggleParse sampleDocument ([], [])
             (sampleWorld (Some [83]%N))).
  - reflexivity.
  - constructor; [|constructor]. split.
    + split; simpl; [lia | intros e [= <-]; lia].
    + apply Z.ltb_lt. reflexivity.
Defined.

(** X21.  Whenever [updateDecorations] succeeds for a visible Python
    document, [provideCodeLenses] succeeds on the same stored set and gives
    exactly one lens for each decoration, one per block range of the file,
    each on the first line of its range. *)
Theorem one_code_lens_per_decoration
    (JSON_parse : Js.text -> result (list NvtxRange))
    (document : TextDocument) (shown groups : list Decoration * list Decoration)
    (w w' : World) :
  NvtxDecorationManager.updateDecorations JSON_parse true (Some document) shown w
  = (Ok tt, groups, w') ->
  exists lenses,
    NvtxCodeLensProvider.provideCodeLenses JSON_parse true "python" document w
    = (Ok lenses, w') /\
    List.length lenses = (List.length (fst groups) + List.length (snd groups))%nat /\
    map (fun lens => line (start (lensRange lens))) lenses
    = map (fun r => startLine r - 1)
        (blocksOf document (fst (readRanges JSON_parse w))).
Proof.
  unfold NvtxDecorationManager.updateDecorations,
    NvtxCodeLensProvider.provideCodeLenses.
  destruct (readRanges JSON_parse w) as [ranges w1]. simpl.
  destruct (NvtxDecorationManager.groupDecorations document _ ([], []))
    as [groups0|m] eqn:Hgroups; [|discriminate].
  intros [= <- <-].
  apply groupDecorations_count in Hgroups. destruct Hgroups as [Hcount Hstart].
  assert (Hsame :
    filter isBlock
      (filter (fun r => String.eqb (filePath r) (fsPath document)) ranges)
    = blocksOf document ranges).
  { unfold blocksOf. clear. induction ranges as [|x rest IH]; simpl; [reflexivity|].
    destruct (String.eqb (filePath x) (fsPath document)); simpl; [|exact IH].
    destruct (isBlock x); simpl; now rewrite IH. }
  destruct (mapR_codeLensOf (blocksOf document ranges)) as (lenses & Hmap & Hlen & Hlines).
  - rewrite <- Hsame. rewrite Forall_forall in *. intros r Hin.
    apply filter_In in Hin. destruct Hin as [Hin Hblock]. auto.
  - exists lenses. unfold blocksOf in *. rewrite Hmap.
    repeat split; auto. rewrite Hlen. simpl in Hcount. rewrite Hcount.
    now rewrite Hsame.
Qed.

Lemma one_code_lens_per_decoration_witness :
  exists lenses,
    NvtxCodeLensProvider.provideCodeLenses toggleParse true "python" sampleDocument
      (sampleWorld (Some [83]%N))
    = (Ok lenses, sampleWorld (Some [83]%N)) /\
    List.length lenses = 1%nat.
Proof.
  destruct (one_code_lens_per_decoration toggleParse sampleDocument ([], [])
              ([wholeLinesDecoration sampleDocument (blockRange 10 15)], [])
              (sampleWorld (Some [83]%N)) (sampleWorld (Some [83]%N)))
    as (lenses & Hrun & Hcount & _).
  - reflexivity.
  - exists lenses. split; [exact Hrun | exact Hcount].
Defined.

(** ** The handler as a whole, the ids and the queries *)

Lemma processChanges_no_ranges cur document changes : forall modified,
  processChanges cur document changes ([], modified) = Ok ([], modified).
Proof.
  induction changes as [|change rest IH]; simpl; intros modified; [reflexivity|].
  unfold processChange. simpl.
  destruct (netLineChange change =? 0); [apply IH|].
  simpl. rewrite orb_false_r. apply IH.
Qed.

Lemma readRanges_closed_workspace
    (JSON_parse : Js.text -> result (list NvtxRange)) (w : World) :
  workspaceOpen w = false -> fst (readRanges JSON_parse w) = [].
Proof.
  intros H. unfold readRanges, getRangesFilePath. now rewrite H.
Qed.

(** X22.  What an event does to the store.  For a document that is not the
    active editor's, nothing: the world is returned as it was.  For the
    active editor's document: if the processing throws, the handler throws
    and nothing is written, whatever earlier edits of the event had moved;
    if no modification is flagged, the file and the change signal are left
    alone; if one is flagged, the change is signalled once and the file
    holds the serialised result, or, when the disk cannot be written, its
    old content with one more error reported. *)
Theorem handleTextDocumentChange_outcomes
    (JSON_parse : Js.text -> result (list NvtxRange))
    (JSON_stringify : list NvtxRange -> Js.text)
    (ev : TextDocumentChangeEvent) (w : World) :
  (activeTextEditor w <> Some (fsPath (document ev)) ->
   handleTextDocumentChange JSON_parse JSON_stringify ev w = (Ok tt, w)) /\
  (activeTextEditor w = Some (fsPath (document ev)) ->
   match processChanges (fsPath (document ev)) (document ev) (contentChanges ev)
           (fst (readRanges JSON_parse w), false) with
   | Throw m =>
       handleTextDocumentChange JSON_parse JSON_stringify ev w
       = (Throw m, snd (readRanges JSON_parse w))
   | Ok (ranges', false) =>
       fst (handleTextDocumentChange JSON_parse JSON_stringify ev w) = Ok tt /\
       rangesFile (snd (handleTextDocumentChange JSON_parse JSON_stringify ev w))
       = rangesFile w /\
       rangesChangedSignals
         (snd (handleTextDocumentChange JSON_parse JSON_stringify ev w))
       = rangesChangedSignals w
   | Ok (ranges', true) =>
       fst (handleTextDocumentChange JSON_parse JSON_stringify ev w) = Ok tt /\
       rangesChangedSignals
         (snd (handleTextDocumentChange JSON_parse JSON_stringify ev w))
       = S (rangesChangedSignals w) /\
       if diskWritable w
       then rangesFile (snd (handleTextDocumentChange JSON_parse JSON_stringify ev w))
            = Some (JSON_stringify ranges')
       else rangesFile (snd (handleTextDocumentChange JSON_parse JSON_stringify ev w))
            = rangesFile w /\
            List.length
              (reported (snd (handleTextDocumentChange JSON_parse JSON_stringify ev w)))
            = S (List.length (reported (snd (readRanges JSON_parse w))))
   end).
Proof.
  unfold handleTextDocumentChange. split.
  - intros Hactive. destruct (activeTextEditor w) as [p|]; [|reflexivity].
    destruct (String.eqb_spec p (fsPath (document ev))) as [->|Hne];
      [congruence|reflexivity].
  - intros Hactive. rewrite Hactive, String.eqb_refl. simpl.
    pose proof (readRanges_rangesFile JSON_parse w) as Hfile.
    pose proof (readRanges_signals JSON_parse w) as Hsig.
    destruct (readRanges_keeps_switches JSON_parse w) as [Hopen Hdisk].
    pose proof (readRanges_closed_workspace JSON_parse w) as Hclosed.
    destruct (readRanges JSON_parse w) as [ranges w1]. simpl in *.
    destruct (processChanges _ _ _ (ranges, false)) as [[ranges' [|]]|m] eqn:Hrun;
      simpl; [|auto|reflexivity].
    split; [reflexivity|].
    assert (Hw : workspaceOpen w = true).
    { destruct (workspaceOpen w); [reflexivity|].
      rewrite (Hclosed eq_refl), processChanges_no_ranges in Hrun. discriminate. }
    unfold writeRanges, getRangesFilePath. rewrite Hopen, Hw, Hdisk. simpl.
    destruct (diskWritable w); simpl.
    + auto.
    + rewrite length_app. simpl. split; [congruence|]. split; [assumption|lia].
Qed.

(** Two line breaks above the stored range: the file is rewritten and the
    change signalled; in another document than the active one, nothing. *)
Lemma handleTextDocumentChange_outcomes_witness :
  rangesChangedSignals
    (snd (handleTextDocumentChange toggleParse toggleStringify
            (mkEvent sampleDocument [insertAt 5 0 [Js.LF; Js.LF]])
            (sampleWorld (Some [83]%N))))
  = 1%nat /\
  handleTextDocumentChange toggleParse toggleStringify
    (mkEvent (mkDoc "/w/eval.py" [codeLine]) [insertAt 0 0 [Js.LF]])
    (sampleWorld (Some [83]%N))
  = (Ok tt, sampleWorld (Some [83]%N)).
Proof.
  split.
  - pose proof (proj2 (handleTextDocumentChange_outcomes toggleParse toggleStringify
                         (mkEvent sampleDocument [insertAt 5 0 [Js.LF; Js.LF]])
                         (sampleWorld (Some [83]%N))) eq_refl) as H.
    simpl in H. destruct H as (_ & Hsig & _). exact Hsig.
  - apply (proj1 (handleTextDocumentChange_outcomes toggleParse toggleStringify
                    (mkEvent (mkDoc "/w/eval.py" [codeLine]) [insertAt 0 0 [Js.LF]])
                    (sampleWorld (Some [83]%N)))).
    discriminate.
Defined.

(** X23.  Two created ranges have the same id exactly when the clock read
    the same at both creations: the name, the file, the lines and the other
    arguments play no part. *)
Theorem created_ids_differ_iff_clock_differs
    (now1 now2 : Z)
    (name1 filePath1 : string) (startLine1 : Z) (endLine1 : option Z)
    (type1 : option RangeType) (isEnabled1 : option bool)
    (name2 filePath2 : string) (startLine2 : Z) (endLine2 : option Z)
    (type2 : option RangeType) (isEnabled2 : option bool) :
  id (createRange now1 name1 filePath1 startLine1 endLine1 type1 isEnabled1)
  = id (createRange now2 name2 filePath2 startLine2 endLine2 type2 isEnabled2)
  <-> now1 = now2.
Proof.
  simpl. unfold generateUniqueId. split; [apply toString_injective|now intros ->].
Qed.

(** X24.  The queries read and never write: each returns, in stored order,
    the stored ranges that pass its test, and leaves the world as a plain
    read leaves it.  The enabled block ranges are the block ranges among the
    enabled ranges, and the enabled block ranges of one file are the
    enabled blocks among that file's ranges. *)
Theorem queries_filter_the_stored_set
    (JSON_parse : Js.text -> result (list NvtxRange)) (path : string) (w : World) :
  (forall r,
     In r (fst (getEnabledBlockRanges JSON_parse w)) <->
     In r (fst (readRanges JSON_parse w)) /\ isEnabled r = true /\ type r = block) /\
  fst (getEnabledBlockRanges JSON_parse w)
  = filter isBlock (fst (getEnabledRanges JSON_parse w)) /\
  filter (fun r => String.eqb (filePath r) path)
    (fst (getEnabledBlockRanges JSON_parse w))
  = filter (fun r => isEnabled r && isBlock r)
      (fst (getRangesForFile JSON_parse path w)) /\
  snd (getEnabledBlockRanges JSON_parse w) = snd (readRanges JSON_parse w) /\
  snd (getEnabledRanges JSON_parse w) = snd (readRanges JSON_parse w) /\
  snd (getRangesForFile JSON_parse path w) = snd (readRanges JSON_parse w).
Proof.
  unfold getEnabledBlockRanges, getEnabledRanges, getRangesForFile.
  destruct (readRanges JSON_parse w) as [ranges w1]. simpl.
  split; [|split; [|split; [|auto]]].
  - intros r. rewrite filter_In, andb_true_iff. unfold isBlock.
    destruct (type r); intuition congruence.
  - induction ranges as [|x rest IH]; simpl; [reflexivity|].
    destruct (isEnabled x); simpl; [|exact IH].
    destruct (isBlock x); simpl; now rewrite IH.
  - induction ranges as [|x rest IH]; simpl; [reflexivity|].
    destruct (isEnabled x && isBlock x) eqn:Hx; simpl;
      destruct (String.eqb (filePath x) path); simpl; rewrite ?Hx; now rewrite IH.
Qed.
